(** * LLD demonstrations: a shallow embedding and its properties

    The repository is a set of independent TypeScript demonstrations
    (state, observer, factory, builder, singleton and strategy patterns,
    overloading, open/closed, encapsulation, and the payment and order
    services of the design-principles notes).  Each demonstration is
    embedded in a module of its own, named after the pattern, and the
    definitions keep the names of the classes and methods they are
    translated from.

    Conventions shared by the modules:
    - an object is a record that carries its reference ([ref], the
      allocation number) next to its class or fields; allocation bumps a
      counter of the runtime, so that "the same instance" is equality of
      references;
    - [console.log] appends a line to the console of the runtime;
    - a JavaScript [number] is an IEEE 754 binary64 value, Rocq's primitive
      [float], with the primitive (round-to-nearest-even) operations;
    - a thrown [Error] is the [Throw] outcome of a [Result];
    - a string that is only stored or printed is a Rocq string; a string
      whose characters the code inspects is the list of its UTF-16 code
      units ([jsstring]), with [trim] stripping the white space of the
      language standard and [toUpperCase], whose Unicode tables belong to
      the runtime, a parameter of the code that calls it. *)

From Stdlib Require Import ZArith NArith List String Ascii Bool Lia.
From Stdlib Require Import Floats DecimalString.
From Stdlib Require Uint63.
Import ListNotations.
Local Open Scope string_scope.
Local Open Scope list_scope.


(** ** Strings the code inspects

    A string whose characters the code looks at (the type code of the
    factory, the name of the builder, the e-mail of an order) is the list
    of its UTF-16 code units.  [js] gives the code units of a literal of
    ASCII text. *)

Definition jsstring : Type := list N.

Definition js (s : string) : jsstring := map N_of_ascii (list_ascii_of_string s).

(** [===] on two strings. *)
Fixpoint jseqb (s t : jsstring) : bool :=
  match s, t with
  | [], [] => true
  | a :: s', b :: t' => (a =? b)%N && jseqb s' t'
  | _, _ => false
  end.

(** ** Outcomes of a call that may throw *)

Inductive Result (A : Type) : Type :=
| Ok (value : A)
| Throw (message : jsstring).
Arguments Ok {A} value.
Arguments Throw {A} message.

(** ** Console lines

    A template literal that interpolates a number is kept as its pieces:
    the literal text and the interpolated numbers, in order.  The decimal
    rendering of a number ([Number::toString]) is not interpreted. *)

Inductive Piece : Type :=
| Txt (text : string)
| Num (x : float).

Definition Line : Type := list Piece.

(** The line feed of the string literals that contain one. *)
Definition nl : string := String (ascii_of_nat 10) EmptyString.


(** ** String built-ins *)

Definition is_lower (c : N) : bool := ((97 <=? c) && (c <=? 122))%N.

Definition is_upper (c : N) : bool := ((65 <=? c) && (c <=? 90))%N.

(** A string of ASCII characters only. *)
Definition ascii_only (s : jsstring) : bool := forallb (fun c => (c <? 128)%N) s.

(** Upper-casing on ASCII: the letters a to z go to A to Z, every other
    character stays. *)
Definition ascii_upper (c : N) : N := if is_lower c then (c - 32)%N else c.

Definition ascii_toUpperCase (s : jsstring) : jsstring := map ascii_upper s.

(** [String.prototype.toUpperCase] applies the upper-case mapping of the
    Unicode tables of the runtime, which are no part of the repository:
    the code that calls it takes the function as a parameter.  What the
    development relies on is its behaviour on ASCII text. *)
Definition upper_casing (toUpperCase : jsstring -> jsstring) : Prop :=
  forall s : jsstring, ascii_only s = true -> toUpperCase s = ascii_toUpperCase s.

(** An upper-casing that also knows the two letters outside ASCII whose
    upper case is an ASCII letter: the long s (U+017F, to S) and the
    dotless i (U+0131, to I). *)
Definition sample_toUpperCase (s : jsstring) : jsstring :=
  map (fun c => if is_lower c then (c - 32)%N
                else if (c =? 383)%N then 83%N
                else if (c =? 305)%N then 73%N
                else c) s.

(** The white space and the line terminators that [trim] strips: tab, line
    feed, vertical tab, form feed, carriage return, space, no-break space,
    the other space separators of Unicode, the line and paragraph
    separators and the byte order mark. *)
Definition is_whitespace (c : N) : bool :=
  (((9 <=? c) && (c <=? 13)) || (c =? 32) || (c =? 160) || (c =? 5760)
   || ((8192 <=? c) && (c <=? 8202)) || (c =? 8232) || (c =? 8233)
   || (c =? 8239) || (c =? 8287) || (c =? 12288) || (c =? 65279))%N.

Fixpoint trimStart (s : jsstring) : jsstring :=
  match s with
  | [] => []
  | c :: s' => if is_whitespace c then trimStart s' else s
  end.

Definition trimEnd (s : jsstring) : jsstring := rev (trimStart (rev s)).

(** [String.prototype.trim]. *)
Definition trim (s : jsstring) : jsstring := trimEnd (trimStart s).

(** Two characters that differ at most by the case of an ASCII letter. *)
Definition eq_ignoring_case (a b : N) : bool :=
  ((a =? b) || (is_upper a && (a + 32 =? b)) || (is_upper b && (b + 32 =? a)))%N.

(** Case-insensitive equality of two strings, character by character. *)
Fixpoint matches_ignoring_case (s t : jsstring) : bool :=
  match s, t with
  | [], [] => true
  | a :: s', b :: t' => eq_ignoring_case a b && matches_ignoring_case s' t'
  | _, _ => false
  end.

(** The code points that the language standard lists as white space
    (TAB, VT, FF, ZWNBSP and the space separators) and as line
    terminators (LF, CR, LS, PS). *)
Definition White_Space : list N :=
  [9; 11; 12; 65279; 32; 160; 5760; 8192; 8193; 8194; 8195; 8196; 8197; 8198;
   8199; 8200; 8201; 8202; 8239; 8287; 12288]%N.

Definition Line_Terminator : list N := [10; 13; 8232; 8233]%N.

(** A string of white space and line terminators only (the empty string
    included). *)
Definition blank (s : jsstring) : bool :=
  forallb (fun c => existsb (N.eqb c) (White_Space ++ Line_Terminator)) s.

(** ** Number built-ins *)

(** The decimal digits of a natural number. *)
Definition digits (n : Z) : string := NilZero.string_of_uint (N.to_uint (Z.to_N n)).

Fixpoint zeros (k : nat) : string :=
  match k with
  | O => EmptyString
  | S k' => String "0" (zeros k')
  end.

(** The integer [n] for which [n / 10^f - m * 2^e] is closest to zero, the
    larger one when there are two. *)
Definition nearest_scaled (m : positive) (e : Z) (f : nat) : Z :=
  let k := (Zpos m * 10 ^ Z.of_nat f)%Z in
  if (0 <=? e)%Z then (k * 2 ^ e)%Z
  else ((2 * k + 2 ^ (- e)) / 2 ^ (- e + 1))%Z.

(** The digits of [n] with a decimal point before the last [f] of them. *)
Definition fixed_point (n : Z) (f : nat) : string :=
  let m := digits n in
  match f with
  | O => m
  | _ =>
      let m := if (String.length m <=? f)%nat
               then (zeros (f + 1 - String.length m) ++ m)%string else m in
      let k := String.length m in
      (substring 0 (k - f) m ++ "." ++ substring (k - f) f m)%string
  end.

(** [Number.prototype.toFixed(f)] for [0 <= f <= 100].  A value that is
    not finite, or at least [10^21] in magnitude, is rendered by
    [Number::toString], which stays a [Num] piece. *)
Definition toFixed (x : float) (f : nat) : Line :=
  match Prim2SF x with
  | S754_nan | S754_infinity _ => [Num x]
  | S754_zero _ => [Txt (fixed_point 0 f)]
  | S754_finite s m e =>
      let sign := if s then "-" else "" in
      if (1e21 <=? abs x)%float then [Txt sign; Num (abs x)]
      else [Txt (sign ++ fixed_point (nearest_scaled m e f) f)%string]
  end.

(** The binary64 value of a natural number below [2^53]. *)
Definition of_Z (k : Z) : float := of_uint63 (Uint63.of_Z k).

(** [Math.floor]: zeros, infinities, NaN and the values without a fractional
    bit are returned as they are; otherwise the integer part of the
    magnitude is taken, one more for a negative value with a fraction. *)
Definition Math_floor (x : float) : float :=
  match Prim2SF x with
  | S754_finite s m e =>
      if (0 <=? e)%Z then x
      else
        let q := (Zpos m / 2 ^ (- e))%Z in
        if s then
          if (Zpos m mod 2 ^ (- e) =? 0)%Z
          then (- of_Z q)%float else (- of_Z (q + 1))%float
        else of_Z q
  | _ => x
  end.

(** The integer a number is, when it is one (both zeros are 0). *)
Definition integer_value (x : float) : option Z :=
  match Prim2SF x with
  | S754_zero _ => Some 0%Z
  | S754_finite s m e =>
      let sign := if s then (-1)%Z else 1%Z in
      if (0 <=? e)%Z then Some (sign * (Zpos m * 2 ^ e))%Z
      else if (Zpos m mod 2 ^ (- e) =? 0)%Z then Some (sign * (Zpos m / 2 ^ (- e)))%Z
      else None
  | _ => None
  end.

(** The contract of [Math.random()]: at least 0 and less than 1. *)
Definition unit_interval (r : float) : bool := ((0 <=? r) && (r <? 1))%float.


(** ** Facts about the string built-ins *)

Lemma jseqb_eq (s t : jsstring) : jseqb s t = true <-> s = t.
Proof.
  revert t; induction s as [| a s IH]; intros [| b t]; simpl;
    try (split; [reflexivity | reflexivity]); try (split; discriminate).
  rewrite andb_true_iff, N.eqb_eq, IH. split.
  - intros [-> ->]; reflexivity.
  - intros H; inversion H; auto.
Qed.

Lemma jseqb_spec (s t : jsstring) : reflect (s = t) (jseqb s t).
Proof. apply iff_reflect; symmetry; apply jseqb_eq. Qed.

Lemma eq_ignoring_case_upper (a b : N) :
  eq_ignoring_case a b = (ascii_upper a =? ascii_upper b)%N.
Proof.
  apply eq_true_iff_eq. unfold eq_ignoring_case, ascii_upper, is_upper, is_lower.
  rewrite !orb_true_iff, !andb_true_iff, !N.leb_le, !N.eqb_eq.
  destruct (N.leb_spec 97 a), (N.leb_spec a 122), (N.leb_spec 97 b), (N.leb_spec b 122);
    simpl; lia.
Qed.

(** Matching case-insensitively is having the same ASCII upper-casing. *)
Lemma matches_ignoring_case_upper (s t : jsstring) :
  matches_ignoring_case s t = true <-> ascii_toUpperCase s = ascii_toUpperCase t.
Proof.
  revert t; induction s as [| a s IH]; intros [| b t]; simpl;
    try (split; [reflexivity | reflexivity]); try (split; discriminate).
  rewrite eq_ignoring_case_upper, andb_true_iff, IH, N.eqb_eq.
  split.
  - intros [-> ->]; reflexivity.
  - intros H; inversion H; auto.
Qed.

(** What matches an ASCII string letter by letter is ASCII too, has its
    length, and consists of letters where the other does. *)
Lemma matches_ignoring_case_ascii (s t : jsstring) :
  matches_ignoring_case s t = true -> ascii_only t = true -> ascii_only s = true.
Proof.
  revert t; induction s as [| a s IH]; intros [| b t]; simpl;
    try reflexivity; try discriminate.
  rewrite !andb_true_iff. intros [Hab Hst] [Hb Ht]. split; [| exact (IH t Hst Ht)].
  unfold eq_ignoring_case, is_upper in Hab.
  rewrite !orb_true_iff, !andb_true_iff, !N.leb_le, !N.eqb_eq in Hab.
  apply N.ltb_lt in Hb. apply N.ltb_lt. lia.
Qed.

Lemma matches_ignoring_case_length (s t : jsstring) :
  matches_ignoring_case s t = true -> List.length s = List.length t.
Proof.
  revert t; induction s as [| a s IH]; intros [| b t]; simpl;
    try reflexivity; try discriminate.
  rewrite andb_true_iff. intros [_ H]. f_equal; exact (IH t H).
Qed.

Lemma matches_ignoring_case_letters (s t : jsstring) :
  matches_ignoring_case s t = true ->
  forallb (fun c => is_upper c || is_lower c) t = true ->
  forallb (fun c => is_upper c || is_lower c) s = true.
Proof.
  revert t; induction s as [| a s IH]; intros [| b t]; simpl;
    try reflexivity; try discriminate.
  rewrite !andb_true_iff. intros [Hab Hst] [Hb Ht]. split; [| exact (IH t Hst Ht)].
  unfold eq_ignoring_case, is_upper, is_lower in *.
  rewrite !orb_true_iff, !andb_true_iff, !N.leb_le, !N.eqb_eq in *. lia.
Qed.

Lemma letter_not_whitespace (c : N) :
  is_upper c || is_lower c = true -> is_whitespace c = false.
Proof.
  intros H. apply not_true_is_false. revert H.
  unfold is_upper, is_lower, is_whitespace.
  rewrite !orb_true_iff, !andb_true_iff, !N.leb_le, !N.eqb_eq. lia.
Qed.

Lemma sample_upper_casing : upper_casing sample_toUpperCase.
Proof.
  intros s. unfold sample_toUpperCase, ascii_toUpperCase, ascii_upper.
  induction s as [| c s IH]; simpl; [reflexivity |].
  rewrite andb_true_iff, N.ltb_lt. intros [Hc Hs]. rewrite (IH Hs). f_equal.
  destruct (is_lower c); [reflexivity |].
  destruct (N.eqb_spec c 383); [lia |]. destruct (N.eqb_spec c 305); [lia |].
  reflexivity.
Qed.

(** The comparisons of [is_whitespace] select the listed code points. *)
Lemma is_whitespace_spec (c : N) :
  is_whitespace c = existsb (N.eqb c) (White_Space ++ Line_Terminator).
Proof.
  apply eq_true_iff_eq. unfold is_whitespace, White_Space, Line_Terminator.
  cbn [app existsb].
  rewrite !orb_true_iff, !andb_true_iff, !N.leb_le, !N.eqb_eq. lia.
Qed.

Lemma trimStart_blank (s : jsstring) : trimStart s = [] <-> blank s = true.
Proof.
  unfold blank. induction s as [| c s IH]; cbn [trimStart forallb].
  - split; reflexivity.
  - rewrite <- is_whitespace_spec.
    destruct (is_whitespace c); cbn [andb]; [exact IH |].
    split; discriminate.
Qed.

Lemma trimStart_stable (s : jsstring) :
  match trimStart s with
  | [] => True
  | c :: _ => is_whitespace c = false
  end.
Proof.
  induction s as [| c s IH]; simpl; [exact I |].
  destruct (is_whitespace c) eqn:E; [exact IH | exact E].
Qed.

(** [trim] leaves nothing exactly on the strings of white space. *)
Lemma trim_blank (s : jsstring) : trim s = [] <-> blank s = true.
Proof.
  rewrite <- trimStart_blank. unfold trim, trimEnd. split.
  - intros H. pose proof (trimStart_stable s) as Hs.
    destruct (trimStart s) as [| c r] eqn:E; [reflexivity |].
    exfalso.
    assert (H' : trimStart (rev (c :: r)) = []).
    { apply (f_equal (@rev N)) in H. rewrite rev_involutive in H. exact H. }
    apply trimStart_blank in H'. unfold blank in H'.
    rewrite forallb_forall in H'.
    specialize (H' c (proj1 (in_rev (c :: r) c) (or_introl eq_refl))).
    rewrite <- is_whitespace_spec in H'. congruence.
  - intros ->; reflexivity.
Qed.

(** ** Facts about the number built-ins

    The product of a number of the unit interval with 1000 is rounded to
    nearest; the lemmas below follow the rounding of [SFmul] through its
    two shifts to bound the rounded product below 1000. *)

Local Open Scope Z_scope.

Lemma iter_pos_nat {A : Type} (f : A -> A) (p : positive) (x : A) :
  iter_pos f p x = Nat.iter (Pos.to_nat p) f x.
Proof.
  revert x; induction p as [p IH | p IH |]; intros x; cbn [iter_pos].
  - rewrite !IH, Pos2Nat.inj_xI.
    replace (S (2 * Pos.to_nat p)) with (Pos.to_nat p + S (Pos.to_nat p))%nat by lia.
    rewrite Nat.iter_add, Nat.iter_succ_r. reflexivity.
  - rewrite !IH, Pos2Nat.inj_xO.
    replace (2 * Pos.to_nat p)%nat with (Pos.to_nat p + Pos.to_nat p)%nat by lia.
    rewrite Nat.iter_add. reflexivity.
  - reflexivity.
Qed.

Lemma shr_1_spec (m : Z) (r s : bool) :
  0 <= m ->
  shr_m (shr_1 {| shr_m := m; shr_r := r; shr_s := s |}) = m / 2 /\
  shr_r (shr_1 {| shr_m := m; shr_r := r; shr_s := s |}) = Z.odd m.
Proof.
  intros Hm. rewrite <- Z.div2_div.
  destruct m as [| [p | p |] | p]; simpl; auto; lia.
Qed.

Lemma shr_iter (M : Z) (k : nat) :
  0 <= M ->
  let rec := Nat.iter k shr_1 {| shr_m := M; shr_r := false; shr_s := false |} in
  shr_m rec = M / 2 ^ Z.of_nat k /\
  (shr_r rec = true -> 2 ^ Z.of_nat k <= 2 * (M mod 2 ^ Z.of_nat k)).
Proof.
  intros HM. induction k as [| k IH]; cbv zeta in *.
  - simpl. rewrite Z.div_1_r. split; [reflexivity | discriminate].
  - rewrite Nat.iter_succ.
    destruct (Nat.iter k shr_1 _) as [m r s]; simpl in IH.
    destruct IH as (Hm & _).
    assert (Hp : 0 < 2 ^ Z.of_nat k) by (apply Z.pow_pos_nonneg; lia).
    assert (H0 : 0 <= m) by (rewrite Hm; apply Z.div_pos; lia).
    destruct (shr_1_spec m r s H0) as (H1 & H2). rewrite H1, H2.
    rewrite Nat2Z.inj_succ, Z.pow_succ_r, (Z.mul_comm 2) by lia.
    split.
    + rewrite Hm, Z.div_div by lia. reflexivity.
    + intros Hodd. rewrite Z.rem_mul_r by lia.
      rewrite <- Hm. pose proof (Zmod_odd m) as Ho; rewrite Hodd in Ho.
      pose proof (Z.mod_pos_bound M (2 ^ Z.of_nat k) Hp). nia.
Qed.

Lemma shr_spec (M e n : Z) :
  0 <= M ->
  let res := shr {| shr_m := M; shr_r := false; shr_s := false |} e n in
  snd res = e + Z.max n 0 /\
  shr_m (fst res) = M / 2 ^ Z.max n 0 /\
  (shr_r (fst res) = true -> 2 ^ Z.max n 0 <= 2 * (M mod 2 ^ Z.max n 0)).
Proof.
  intros HM. destruct n as [| p | p]; cbv zeta; simpl shr; cbn [fst snd].
  - rewrite Z.add_0_r, Z.div_1_r. repeat split; discriminate.
  - rewrite iter_pos_nat. replace (Z.max (Z.pos p) 0) with (Z.pos p) by lia.
    destruct (shr_iter M (Pos.to_nat p) HM) as (H1 & H2).
    rewrite positive_nat_Z in H1, H2. auto.
  - replace (Z.max (Z.neg p) 0) with 0 by lia.
    rewrite Z.add_0_r, Z.div_1_r. repeat split; discriminate.
Qed.

Lemma round_nearest_even_spec (rec : shr_record) :
  let m' := round_nearest_even (shr_m rec) (loc_of_shr_record rec) in
  (m' = shr_m rec \/ (m' = shr_m rec + 1 /\ shr_r rec = true)).
Proof.
  destruct rec as [m [|] [|]]; simpl; auto.
  destruct (Z.even m); auto.
Qed.

Lemma binary_round_aux_bound (M : positive) (E : Z) :
  let n1 := fexp prec emax (Zdigits2 (Zpos M) + E) - E in
  0 <= n1 ->
  exists M3 e3 : Z,
    E <= e3 /\ 0 <= M3 /\
    2 * (M3 * 2 ^ (e3 - E)) <= 2 * Zpos M + 2 ^ n1 /\
    binary_round_aux prec emax false (Zpos M) E loc_Exact
    = match M3 with
      | Z0 => S754_zero false
      | Zpos m => if e3 <=? emax - prec then S754_finite false m e3 else S754_infinity false
      | Zneg _ => S754_nan
      end.
Proof.
  intros n1 Hn1. unfold binary_round_aux, shr_fexp.
  change (shr_record_of_loc (Z.pos M) loc_Exact)
    with {| shr_m := Zpos M; shr_r := false; shr_s := false |}.
  fold n1.
  destruct (shr_spec (Zpos M) E n1 ltac:(lia)) as (He1 & HM1 & Hr1).
  destruct (shr _ E n1) as [rec1 e1]; cbn [fst snd] in *.
  replace (Z.max n1 0) with n1 in * by lia.
  pose proof (round_nearest_even_spec rec1) as HM2; cbv zeta in HM2.
  set (M2 := round_nearest_even (shr_m rec1) (loc_of_shr_record rec1)) in *.
  assert (Hp1 : 0 < 2 ^ n1) by (apply Z.pow_pos_nonneg; lia).
  assert (HM1pos : 0 <= shr_m rec1) by (rewrite HM1; apply Z.div_pos; lia).
  assert (HM2pos : 0 <= M2) by (destruct HM2 as [-> | [-> _]]; lia).
  change (shr_record_of_loc M2 loc_Exact)
    with {| shr_m := M2; shr_r := false; shr_s := false |}.
  set (n2 := fexp prec emax (Zdigits2 M2 + e1) - e1).
  destruct (shr_spec M2 e1 n2 HM2pos) as (He3 & HM3 & _).
  destruct (shr _ e1 n2) as [rec3 e3]; cbn [fst snd] in *.
  set (n2' := Z.max n2 0) in *.
  assert (Hp2 : 0 < 2 ^ n2') by (apply Z.pow_pos_nonneg; lia).
  exists (shr_m rec3), e3.
  split; [lia |].
  split; [rewrite HM3; apply Z.div_pos; lia |].
  split; [| reflexivity].
  replace (e3 - E) with (n2' + n1) by lia.
  rewrite Z.pow_add_r by lia.
  assert (H3 : shr_m rec3 * 2 ^ n2' <= M2).
  { rewrite HM3, Z.mul_comm. apply Z.mul_div_le; lia. }
  assert (H2 : 2 * (M2 * 2 ^ n1) <= 2 * Zpos M + 2 ^ n1).
  { pose proof (Z.div_mod (Zpos M) (2 ^ n1) ltac:(lia)) as Hdm.
    pose proof (Z.mod_pos_bound (Zpos M) (2 ^ n1) Hp1) as Hmod.
    rewrite <- HM1 in Hdm.
    destruct HM2 as [-> | [-> Hr]].
    - nia.
    - specialize (Hr1 Hr). nia. }
  nia.
Qed.


Lemma digits2_pos_size (p : positive) : digits2_pos p = Pos.size p.
Proof. induction p; simpl; congruence. Qed.

Lemma digits2_pos_bounds (p : positive) :
  Zpos p < 2 ^ Zpos (digits2_pos p) /\ 2 ^ Zpos (digits2_pos p) <= 2 * Zpos p.
Proof.
  rewrite digits2_pos_size. split.
  - pose proof (Pos.size_gt p) as H. apply Pos2Z.pos_lt_pos in H.
    rewrite Pos2Z.inj_pow in H. exact H.
  - pose proof (Pos.size_le p) as H. apply Pos2Z.pos_le_pos in H.
    rewrite Pos2Z.inj_pow in H. exact H.
Qed.

Lemma integer_value_of_Z (k : Z) :
  0 <= k < 1000 -> integer_value (of_Z k) = Some k.
Proof.
  intros Hk.
  assert (H : forallb (fun n => match integer_value (of_Z (Z.of_nat n)) with
                                | Some v => v =? Z.of_nat n
                                | None => false
                                end) (seq 0 1000) = true) by (vm_compute; reflexivity).
  rewrite forallb_forall in H. specialize (H (Z.to_nat k)).
  rewrite Z2Nat.id in H by lia.
  destruct (integer_value (of_Z k)) as [v |].
  - f_equal. apply Z.eqb_eq, H, in_seq. lia.
  - discriminate H. apply in_seq; lia.
Qed.

Lemma valid_finite (s : bool) (m : positive) (e : Z) :
  valid_binary (S754_finite s m e) = true ->
  fexp prec emax (Zpos (digits2_pos m) + e) = e /\ e <= emax - prec.
Proof.
  simpl. unfold bounded, canonical_mantissa.
  rewrite andb_true_iff, Z.eqb_eq, Z.leb_le. auto.
Qed.

Lemma floor_random_times_1000 (r : float) :
  (0 <=? r)%float = true ->
  (r <? 1)%float = true ->
  exists k : Z, 0 <= k < 1000 /\ integer_value (Math_floor (r * 1000)) = Some k.
Proof.
  rewrite FloatAxioms.leb_spec, FloatAxioms.ltb_spec.
  change (Prim2SF 0) with (S754_zero false).
  change (Prim2SF 1) with (S754_finite false 4503599627370496 (-52)).
  intros H0 H1.
  pose proof (Prim2SF_valid r) as Vr.
  pose proof (Prim2SF_valid (r * 1000)) as Vx.
  pose proof (mul_spec r 1000) as Hx.
  change (Prim2SF 1000) with (S754_finite false 8796093022208000 (-43)) in Hx.
  destruct (Prim2SF r) as [s | s | | s m e].
  - (* zero *)
    simpl in Hx. exists 0; split; [lia |].
    unfold Math_floor; rewrite Hx. unfold integer_value; rewrite Hx. reflexivity.
  - destruct s; discriminate.
  - discriminate.
  - destruct s; [discriminate H0 |].
    apply valid_finite in Vr. destruct Vr as (Vr & _).
    unfold fexp, emin, prec, emax in Vr.
    destruct (digits2_pos_bounds m) as (Hm1 & _).
    assert (Hd : Zpos (digits2_pos m) <= 53) by lia.
    assert (He : -1074 <= e) by lia.
    assert (Hm53 : Zpos m < 2 ^ 53).
    { eapply Z.lt_le_trans; [exact Hm1 |]. apply Z.pow_le_mono_r; lia. }
    assert (Hlt : e <= -52 /\ Zpos m < 2 ^ (- e)).
    { unfold SFltb, SFcompare in H1.
      destruct (Z.compare_spec e (-52)) as [-> | Hc | Hc]; try discriminate H1.
      - destruct (Pos.compare_cont Eq m 4503599627370496) eqn:Hq;
          try discriminate H1.
        apply (proj1 (Pos.compare_lt_iff m 4503599627370496)) in Hq.
        apply Pos2Z.pos_lt_pos in Hq. split; [lia | exact Hq].
      - split; [lia |].
        eapply Z.lt_le_trans; [exact Hm53 |]. apply Z.pow_le_mono_r; lia. }
    destruct Hlt as (He52 & Hlt). clear H0 H1.
    cbv beta iota delta [SF64mul SFmul xorb] in Hx.
    set (M := (m * 8796093022208000)%positive) in *.
    set (E := e + -43) in *.
    destruct (digits2_pos_bounds M) as (HM1 & HM2).
    assert (HMval : Zpos M = Zpos m * 8796093022208000) by reflexivity.
    clearbody M.
    assert (HdM : 53 <= Zpos (digits2_pos M) <= 106).
    { split.
      - destruct (Z_lt_le_dec (Zpos (digits2_pos M)) 53) as [Hlt' | ]; [| assumption].
        exfalso.
        assert (2 ^ Zpos (digits2_pos M) <= 2 ^ 52) by (apply Z.pow_le_mono_r; lia).
        change (2 ^ 52) with 4503599627370496 in *. lia.
      - destruct (Z_lt_le_dec 106 (Zpos (digits2_pos M))) as [Hlt' | ]; [| assumption].
        exfalso.
        assert (2 ^ 107 <= 2 ^ Zpos (digits2_pos M)) by (apply Z.pow_le_mono_r; lia).
        change (2 ^ 53) with 9007199254740992 in *.
        change (2 ^ 107) with 162259276829213363391578010288128 in *. nia. }
    destruct (binary_round_aux_bound M E) as (M3 & e3 & HE3 & HM3 & Hb & Hres).
    { unfold fexp, emin, prec, emax, E; simpl Zdigits2. lia. }
    set (n1 := fexp prec emax (Zdigits2 (Zpos M) + E) - E) in *.
    assert (Hn1 : 0 <= n1 <= 53).
    { unfold n1, fexp, emin, prec, emax, E; simpl Zdigits2. lia. }
    assert (Hpow_n1 : 2 ^ n1 <= 2 ^ 53) by (apply Z.pow_le_mono_r; lia).
    (* the bound on the value: M3 * 2^(e3 - E) < 1000 * 2^(-E) *)
    assert (HT : 2 ^ (- E) = 8796093022208 * 2 ^ (- e)).
    { unfold E. replace (- (e + -43)) with (43 + - e) by lia.
      rewrite Z.pow_add_r by lia. reflexivity. }
    assert (Hval : M3 * 2 ^ (e3 - E) < 1000 * 2 ^ (- E)).
    { rewrite HT. change (2 ^ 53) with 9007199254740992 in *.
      assert (0 < 2 ^ (- e)) by (apply Z.pow_pos_nonneg; lia). nia. }
    rewrite Hres in Hx. clear Hres.
    destruct M3 as [| m3 | m3]; [| | lia].
    + exists 0; split; [lia |].
      unfold Math_floor; rewrite Hx. unfold integer_value; rewrite Hx. reflexivity.
    + assert (Hsplit : 2 ^ (- E) = 2 ^ (e3 - E) * 2 ^ (- e3) \/ 0 < e3).
      { destruct (Z_lt_le_dec 0 e3); [right; assumption | left].
        rewrite <- Z.pow_add_r by lia. f_equal; lia. }
      assert (Hp3 : 0 < 2 ^ (e3 - E)) by (apply Z.pow_pos_nonneg; lia).
      assert (He3 : e3 < 10).
      { assert (2 ^ (e3 - E) < 2 ^ (10 - E)).
        { replace (10 - E) with (10 + - E) by lia.
          rewrite (Z.pow_add_r 2 10) by lia. change (2 ^ 10) with 1024.
          assert (0 < 2 ^ (- E)) by (apply Z.pow_pos_nonneg; lia). nia. }
        apply Z.pow_lt_mono_r_iff in H; lia. }
      unfold emax, prec in *.
      replace (e3 <=? 1024 - 53) with true in Hx by (symmetry; apply Z.leb_le; lia).
      rewrite Hx in Vx.
      apply valid_finite in Vx. destruct Vx as (Vx & _).
      unfold fexp, emin, prec, emax in Vx.
      destruct (digits2_pos_bounds m3) as (_ & Hm3).
      assert (Hneg : e3 < 0).
      { destruct (Z_lt_le_dec e3 0) as [| Hge]; [assumption | exfalso].
        assert (Hd3 : Zpos (digits2_pos m3) = 53) by lia.
        rewrite Hd3 in Hm3. change (2 ^ 53) with 9007199254740992 in Hm3.
        assert (1 <= 2 ^ (e3 - E) /\ 2 ^ (- E) <= 2 ^ (e3 - E)).
        { split; [lia |]. apply Z.pow_le_mono_r; lia. }
        nia. }
      unfold Math_floor; rewrite Hx.
      replace (0 <=? e3) with false by (symmetry; apply Z.leb_gt; lia).
      destruct Hsplit as [Hsplit | ?]; [| lia].
      assert (Hp4 : 0 < 2 ^ (- e3)) by (apply Z.pow_pos_nonneg; lia).
      assert (Hq : 0 <= Zpos m3 / 2 ^ (- e3) < 1000).
      { split; [apply Z.div_pos; lia |].
        apply Z.div_lt_upper_bound; [lia |]. rewrite Hsplit in Hval. nia. }
      exists (Zpos m3 / 2 ^ (- e3)). split; [exact Hq |].
      apply integer_value_of_Z in Hq. exact Hq.
Qed.

(** Addition and multiplication of numbers are commutative, and a product
    does not see a common sign of its factors. *)

Lemma SFmul_comm (x y : spec_float) : SF64mul x y = SF64mul y x.
Proof.
  unfold SF64mul, SFmul.
  destruct x as [sx | sx | | sx mx ex], y as [sy | sy | | sy my ey];
    try reflexivity; try (rewrite (xorb_comm sx sy); reflexivity).
  rewrite (xorb_comm sx sy), (Pos.mul_comm mx my), (Z.add_comm ex ey). reflexivity.
Qed.

Lemma float_mul_comm (x y : float) : (x * y = y * x)%float.
Proof. apply Prim2SF_inj. rewrite !mul_spec. apply SFmul_comm. Qed.

Lemma SFadd_comm (x y : spec_float) : SF64add x y = SF64add y x.
Proof.
  unfold SF64add, SFadd.
  destruct x as [sx | sx | | sx mx ex], y as [sy | sy | | sy my ey];
    try reflexivity;
    try (destruct sx, sy; reflexivity).
  rewrite (Z.min_comm ey ex), Z.add_comm. reflexivity.
Qed.

Lemma float_add_comm (x y : float) : (x + y = y + x)%float.
Proof. apply Prim2SF_inj. rewrite !add_spec. apply SFadd_comm. Qed.

Lemma float_mul_opp_opp (x : float) : ((- x) * (- x) = x * x)%float.
Proof.
  apply Prim2SF_inj. rewrite !mul_spec, !opp_spec.
  unfold SF64mul, SFmul, SFopp.
  destruct (Prim2SF x) as [s | s | | s m e]; try reflexivity;
    destruct s; reflexivity.
Qed.

Local Close Scope Z_scope.

(** * State pattern: [state-pattern.ts] *)

Module StatePattern.

(** The three concrete classes that implement [PlayerState]. *)
Inductive StateClass : Type := StoppedState | PlayingState | PausedState.

(** A state object: the states hold no data, only their identity and
    their class. *)
Record PlayerState : Type := { ref : nat; class : StateClass }.

Record Runtime : Type := { next_ref : nat; console : list string }.

(** [class MusicPlayer]: three state fields and the current state. *)
Record MusicPlayer : Type := {
  stoppedState : PlayerState;
  playingState : PlayerState;
  pausedState : PlayerState;
  currentState : PlayerState
}.

(** A configuration: the one player of the demonstration and the runtime. *)
Definition Machine : Type := (MusicPlayer * Runtime)%type.

Definition console_log (line : string) (m : Machine) : Machine :=
  (fst m, {| next_ref := next_ref (snd m); console := console (snd m) ++ [line] |}).

(** [new C()] for a state class [C]. *)
Definition new (c : StateClass) (rt : Runtime) : PlayerState * Runtime :=
  ({| ref := next_ref rt; class := c |},
   {| next_ref := S (next_ref rt); console := console rt |}).

Definition setState (state : PlayerState) (m : Machine) : Machine :=
  ({| stoppedState := stoppedState (fst m);
      playingState := playingState (fst m);
      pausedState := pausedState (fst m);
      currentState := state |}, snd m).

Definition getStoppedState (player : MusicPlayer) : PlayerState := stoppedState player.
Definition getPlayingState (player : MusicPlayer) : PlayerState := playingState player.
Definition getPausedState (player : MusicPlayer) : PlayerState := pausedState player.

(** The methods of the concrete states; the player argument of the source
    is the player of the configuration. *)
Definition StoppedState_pressPlay (m : Machine) : Machine :=
  let m := console_log "Starting music from the beginning..." m in
  setState (getPlayingState (fst m)) m.

Definition StoppedState_pressPause (m : Machine) : Machine :=
  console_log "Cannot pause. The player is currently stopped." m.

Definition StoppedState_pressStop (m : Machine) : Machine :=
  console_log "Already stopped." m.

Definition PlayingState_pressPlay (m : Machine) : Machine :=
  console_log "Already playing music." m.

Definition PlayingState_pressPause (m : Machine) : Machine :=
  let m := console_log "Music paused." m in
  setState (getPausedState (fst m)) m.

Definition PlayingState_pressStop (m : Machine) : Machine :=
  let m := console_log "Stopping music and resetting track." m in
  setState (getStoppedState (fst m)) m.

Definition PausedState_pressPlay (m : Machine) : Machine :=
  let m := console_log "Resuming music..." m in
  setState (getPlayingState (fst m)) m.

Definition PausedState_pressPause (m : Machine) : Machine :=
  console_log "Already paused." m.

Definition PausedState_pressStop (m : Machine) : Machine :=
  let m := console_log "Stopping music and resetting track." m in
  setState (getStoppedState (fst m)) m.

(** [new MusicPlayer()]. *)
Definition new_MusicPlayer (rt : Runtime) : Machine :=
  let (stopped, rt) := new StoppedState rt in
  let (playing, rt) := new PlayingState rt in
  let (paused, rt) := new PausedState rt in
  ({| stoppedState := stopped;
      playingState := playing;
      pausedState := paused;
      currentState := stopped |}, rt).

(** The buttons delegate to the current state: dynamic dispatch on its class. *)
Definition pressPlay (m : Machine) : Machine :=
  match class (currentState (fst m)) with
  | StoppedState => StoppedState_pressPlay m
  | PlayingState => PlayingState_pressPlay m
  | PausedState => PausedState_pressPlay m
  end.

Definition pressPause (m : Machine) : Machine :=
  match class (currentState (fst m)) with
  | StoppedState => StoppedState_pressPause m
  | PlayingState => PlayingState_pressPause m
  | PausedState => PausedState_pressPause m
  end.

Definition pressStop (m : Machine) : Machine :=
  match class (currentState (fst m)) with
  | StoppedState => StoppedState_pressStop m
  | PlayingState => PlayingState_pressStop m
  | PausedState => PausedState_pressStop m
  end.

(** Finite sequences of button presses. *)
Inductive Button : Type := Play | Pause | Stop.

Definition press (b : Button) : Machine -> Machine :=
  match b with
  | Play => pressPlay
  | Pause => pressPause
  | Stop => pressStop
  end.

Definition run (bs : list Button) (m : Machine) : Machine :=
  fold_left (fun m b => press b m) bs m.

Definition current (m : Machine) : StateClass := class (currentState (fst m)).

(** The transition table as the specification words it: the state after a
    button, and whether the button is rejected in a state. *)
Definition spec_next (s : StateClass) (b : Button) : StateClass :=
  match s, b with
  | StoppedState, Play => PlayingState
  | PlayingState, Pause => PausedState
  | PlayingState, Stop => StoppedState
  | PausedState, Play => PlayingState
  | PausedState, Stop => StoppedState
  | s, _ => s
  end.

Definition spec_rejected (s : StateClass) (b : Button) : bool :=
  match s, b with
  | StoppedState, Pause | StoppedState, Stop
  | PlayingState, Play | PausedState, Pause => true
  | _, _ => false
  end.

(** The message a state prints for a button. *)
Definition message (s : StateClass) (b : Button) : string :=
  match s, b with
  | StoppedState, Play => "Starting music from the beginning..."
  | StoppedState, Pause => "Cannot pause. The player is currently stopped."
  | StoppedState, Stop => "Already stopped."
  | PlayingState, Play => "Already playing music."
  | PlayingState, Pause => "Music paused."
  | PlayingState, Stop => "Stopping music and resetting track."
  | PausedState, Play => "Resuming music..."
  | PausedState, Pause => "Already paused."
  | PausedState, Stop => "Stopping music and resetting track."
  end.

(** The invariant of a player built by the constructor at allocation
    number [n]: its three state fields are the three objects allocated
    there, and the current state is one of them. *)
Definition built_at (n : nat) (p : MusicPlayer) : Prop :=
  stoppedState p = {| ref := n; class := StoppedState |} /\
  playingState p = {| ref := S n; class := PlayingState |} /\
  pausedState p = {| ref := S (S n); class := PausedState |} /\
  (currentState p = stoppedState p \/
   currentState p = playingState p \/
   currentState p = pausedState p).

(** The messages that a sequence of buttons prints from a state, by the
    transition table. *)
Fixpoint spec_messages (s : StateClass) (bs : list Button) : list string :=
  match bs with
  | [] => []
  | b :: bs' => message s b :: spec_messages (spec_next s b) bs'
  end.

(** ** Properties of the player *)

Lemma new_MusicPlayer_built (rt : Runtime) :
  built_at (next_ref rt) (fst (new_MusicPlayer rt)) /\
  currentState (fst (new_MusicPlayer rt)) = stoppedState (fst (new_MusicPlayer rt)) /\
  next_ref (snd (new_MusicPlayer rt)) = S (S (S (next_ref rt))) /\
  console (snd (new_MusicPlayer rt)) = console rt.
Proof.
  unfold built_at, new_MusicPlayer; simpl; auto 10.
Qed.

(** Each button prints one message, keeps the three state fields and the
    allocation counter, and installs the state the table names. *)
Lemma press_step (n : nat) (b : Button) (m : Machine) :
  built_at n (fst m) ->
  built_at n (fst (press b m)) /\
  next_ref (snd (press b m)) = next_ref (snd m) /\
  console (snd (press b m)) = console (snd m) ++ [message (current m) b] /\
  current (press b m) = spec_next (current m) b /\
  (spec_rejected (current m) b = true -> fst (press b m) = fst m).
Proof.
  destruct m as [p rt]; unfold built_at, current; simpl.
  intros (Hs & Hp & Hq & Hc).
  destruct p as [s pl pa c]; simpl in *; subst s pl pa.
  destruct Hc as [-> | [-> | ->]]; destruct b; simpl;
    repeat split; auto; discriminate.
Qed.

Lemma press_rejected (b : Button) (m : Machine) :
  spec_rejected (current m) b = true ->
  press b m = console_log (message (current m) b) m.
Proof.
  destruct b; unfold current, press, pressPlay, pressPause, pressStop;
    destruct (class (currentState (fst m))); simpl; intros H;
    solve [reflexivity | discriminate H].
Qed.

Lemma run_app (bs1 bs2 : list Button) (m : Machine) :
  run (bs1 ++ bs2) m = run bs2 (run bs1 m).
Proof. unfold run; apply fold_left_app. Qed.

Lemma run_built (n : nat) (bs : list Button) (m : Machine) :
  built_at n (fst m) ->
  built_at n (fst (run bs m)) /\ next_ref (snd (run bs m)) = next_ref (snd m).
Proof.
  revert m; induction bs as [| b bs IH]; intros m H; simpl.
  - split; [exact H | reflexivity].
  - destruct (press_step n b m H) as (H1 & H2 & _).
    destruct (IH (press b m) H1) as (H3 & H4).
    split; [exact H3 | congruence].
Qed.

(** C1: the player starts Stopped, and in every state reached from the
    constructor by button presses the buttons follow the transition table:
    Stopped: play goes to Playing, pause is rejected; Playing: play is
    rejected, pause goes to Paused, stop goes to Stopped; Paused: play goes
    to Playing, stop goes to Stopped.  A rejected button only prints its
    message: the player, and so its current state, is unchanged.  Every
    button returns a configuration (the calls are total: nothing throws). *)
Theorem player_transitions (rt0 : Runtime) (bs : list Button) :
  let m := run bs (new_MusicPlayer rt0) in
  current (new_MusicPlayer rt0) = StoppedState /\
  (current m = StoppedState ->
     pressPause m = console_log "Cannot pause. The player is currently stopped." m /\
     current (pressPause m) = StoppedState /\
     current (pressPlay m) = PlayingState) /\
  (current m = PlayingState ->
     pressPlay m = console_log "Already playing music." m /\
     current (pressPlay m) = PlayingState /\
     current (pressPause m) = PausedState /\
     current (pressStop m) = StoppedState) /\
  (current m = PausedState ->
     current (pressPlay m) = PlayingState /\
     current (pressStop m) = StoppedState) /\
  (forall b : Button,
     current (press b m) = spec_next (current m) b /\
     console (snd (press b m)) = console (snd m) ++ [message (current m) b] /\
     (spec_rejected (current m) b = true ->
        press b m = console_log (message (current m) b) m /\
        currentState (fst (press b m)) = currentState (fst m))).
Proof.
  intro m.
  assert (Hm : built_at (next_ref rt0) (fst m)).
  { apply run_built, new_MusicPlayer_built. }
  assert (Hrej : forall b, spec_rejected (current m) b = true ->
                           press b m = console_log (message (current m) b) m).
  { intros b; apply press_rejected. }
  split; [reflexivity |].
  split; [| split; [| split]].
  - intros Hc. split; [| split].
    + generalize (Hrej Pause); rewrite Hc; simpl; auto.
    + destruct (press_step _ Pause m Hm) as (_ & _ & _ & H & _).
      simpl in H; rewrite H, Hc; reflexivity.
    + destruct (press_step _ Play m Hm) as (_ & _ & _ & H & _).
      simpl in H; rewrite H, Hc; reflexivity.
  - intros Hc. split; [| split; [| split]].
    + generalize (Hrej Play); rewrite Hc; simpl; auto.
    + destruct (press_step _ Play m Hm) as (_ & _ & _ & H & _).
      simpl in H; rewrite H, Hc; reflexivity.
    + destruct (press_step _ Pause m Hm) as (_ & _ & _ & H & _).
      simpl in H; rewrite H, Hc; reflexivity.
    + destruct (press_step _ Stop m Hm) as (_ & _ & _ & H & _).
      simpl in H; rewrite H, Hc; reflexivity.
  - intros Hc. split.
    + destruct (press_step _ Play m Hm) as (_ & _ & _ & H & _).
      simpl in H; rewrite H, Hc; reflexivity.
    + destruct (press_step _ Stop m Hm) as (_ & _ & _ & H & _).
      simpl in H; rewrite H, Hc; reflexivity.
  - intros b.
    destruct (press_step _ b m Hm) as (_ & _ & Hcon & Hnext & Hfst).
    split; [exact Hnext |]. split; [exact Hcon |].
    intros Hr. split; [exact (Hrej b Hr) |].
    rewrite (Hfst Hr); reflexivity.
Qed.

(** C10: for a player created by the constructor and any finite sequence
    of button presses, the three state fields still hold the three objects
    the constructor allocated (three distinct references), the current
    state is one of these three objects, and the presses allocate nothing
    (the allocation counter is the one the constructor left). *)
Theorem current_state_is_a_constructed_instance (rt0 : Runtime) (bs : list Button) :
  let m0 := new_MusicPlayer rt0 in
  let m := run bs m0 in
  stoppedState (fst m) = stoppedState (fst m0) /\
  playingState (fst m) = playingState (fst m0) /\
  pausedState (fst m) = pausedState (fst m0) /\
  (currentState (fst m) = stoppedState (fst m0) \/
   currentState (fst m) = playingState (fst m0) \/
   currentState (fst m) = pausedState (fst m0)) /\
  next_ref (snd m) = next_ref (snd m0) /\
  ref (stoppedState (fst m0)) <> ref (playingState (fst m0)) /\
  ref (stoppedState (fst m0)) <> ref (pausedState (fst m0)) /\
  ref (playingState (fst m0)) <> ref (pausedState (fst m0)) /\
  (forall s : PlayerState,
     In s [stoppedState (fst m0); playingState (fst m0); pausedState (fst m0)] ->
     next_ref rt0 <= ref s < next_ref (snd m0)).
Proof.
  intros m0 m.
  destruct (new_MusicPlayer_built rt0) as (H0 & _ & Hn & _).
  destruct (run_built (next_ref rt0) bs m0 H0) as (Hm & Hr).
  fold m0 in H0, Hn. fold m in Hm, Hr.
  destruct H0 as (A0 & B0 & C0 & _), Hm as (A & B & C & D).
  rewrite A0, B0, C0, Hn; rewrite A, B, C in D |- *; simpl.
  do 3 (split; [reflexivity |]).
  split; [exact D |].
  split; [congruence |].
  do 3 (split; [lia |]).
  intros s [<- | [<- | [<- | []]]]; simpl; lia.
Qed.

(** ** Further properties of the player *)

Lemma run_from (n : nat) (bs : list Button) (m : Machine) :
  built_at n (fst m) ->
  current (run bs m) = fold_left spec_next bs (current m) /\
  console (snd (run bs m)) = console (snd m) ++ spec_messages (current m) bs.
Proof.
  revert m; induction bs as [| b bs IH]; intros m H; simpl.
  - rewrite app_nil_r; auto.
  - destruct (press_step n b m H) as (H1 & _ & H3 & H4 & _).
    destruct (IH (press b m) H1) as (IH1 & IH2).
    rewrite IH1, IH2, H3, H4, <- app_assoc. auto.
Qed.

(** X4: The state after any sequence of presses on a new player is the table
    folded over the buttons from Stopped, and the console holds one message
    per press, in order. *)
Theorem run_follows_table (rt0 : Runtime) (bs : list Button) :
  let m := run bs (new_MusicPlayer rt0) in
  current m = fold_left spec_next bs StoppedState /\
  console (snd m) = console rt0 ++ spec_messages StoppedState bs /\
  List.length (console (snd m)) = List.length (console rt0) + List.length bs.
Proof.
  intro m.
  destruct (new_MusicPlayer_built rt0) as (H0 & _ & _ & Hc).
  destruct (run_from _ bs _ H0) as (H1 & H2). fold m in H1, H2.
  change (current (new_MusicPlayer rt0)) with StoppedState in H1, H2.
  rewrite Hc in H2.
  split; [exact H1 |]. split; [exact H2 |].
  rewrite H2, length_app. f_equal.
  generalize StoppedState. clear. induction bs as [| b bs IH]; intros s; simpl; auto.
Qed.

(** X5: Pressing the same button a second time in a row is always rejected:
    the second press changes nothing but the console. *)
Theorem second_press_is_rejected (rt0 : Runtime) (bs : list Button) (b : Button) :
  let m := press b (run bs (new_MusicPlayer rt0)) in
  spec_rejected (current m) b = true /\
  press b m = console_log (message (current m) b) m /\
  fst (press b m) = fst m.
Proof.
  intro m.
  assert (Hb : built_at (next_ref rt0) (fst (run bs (new_MusicPlayer rt0)))).
  { apply run_built, new_MusicPlayer_built. }
  destruct (press_step _ b _ Hb) as (_ & _ & _ & Hn & _). fold m in Hn.
  assert (Hr : spec_rejected (current m) b = true).
  { rewrite Hn. destruct (current (run bs (new_MusicPlayer rt0))), b; reflexivity. }
  split; [exact Hr |].
  rewrite (press_rejected b m Hr). split; reflexivity.
Qed.

(** X6: Play and stop do not depend on the state they are pressed in: after
    play the player is Playing and after stop it is Stopped; pause leads to
    Paused exactly when the player was not Stopped. *)
Theorem play_and_stop_are_absolute (rt0 : Runtime) (bs : list Button) :
  let m := run bs (new_MusicPlayer rt0) in
  current (pressPlay m) = PlayingState /\
  current (pressStop m) = StoppedState /\
  (current (pressPause m) = PausedState <-> current m <> StoppedState) /\
  (current m = StoppedState -> current (pressPause m) = StoppedState).
Proof.
  intro m.
  assert (Hb : built_at (next_ref rt0) (fst m)).
  { apply run_built, new_MusicPlayer_built. }
  destruct (press_step _ Play m Hb) as (_ & _ & _ & H1 & _).
  destruct (press_step _ Stop m Hb) as (_ & _ & _ & H2 & _).
  destruct (press_step _ Pause m Hb) as (_ & _ & _ & H3 & _).
  simpl press in *. rewrite H1, H2, H3.
  destruct (current m); simpl; repeat split; try congruence; try discriminate.
Qed.

End StatePattern.

(** * Observer pattern: [observer-pattern.ts] *)

Module ObserverPattern.

(** The three concrete observers. *)
Inductive ObserverClass : Type := PhoneDisplay | WebDisplay | TVDisplay.

(** An observer object: its reference and its class. *)
Record Observer : Type := { ref : nat; class : ObserverClass }.

(** [===] on two observers compares the references. *)
Definition same (a b : Observer) : bool := Nat.eqb (ref a) (ref b).

Definition getName (o : Observer) : string :=
  match class o with
  | PhoneDisplay => "Phone Display"
  | WebDisplay => "Web Display"
  | TVDisplay => "TV Display"
  end.

Inductive Field : Type := temperature_field | humidity_field.

(** What a run of the station does, step by step: a console line, an
    assignment to one of the two measurement fields, and the entry of a
    call of [update] on an observer. *)
Inductive Event : Type :=
| Log (line : Line)
| Assign (field : Field) (value : float)
| Update (observer : Observer) (temperature humidity : float).

(** [class WeatherStation]. *)
Record WeatherStation : Type := {
  observers : list Observer;
  temperature : float;
  humidity : float
}.

Definition new_WeatherStation : WeatherStation :=
  {| observers := []; temperature := 0%float; humidity := 0%float |}.

(** A method body: it transforms the station and emits events in order. *)
Definition Action : Type := WeatherStation -> WeatherStation * list Event.

Definition skip : Action := fun st => (st, []).

Definition seq (a b : Action) : Action :=
  fun st =>
    let (st1, tr1) := a st in
    let (st2, tr2) := b st1 in
    (st2, tr1 ++ tr2).

Notation "a ;; b" := (seq a b) (at level 61, right associativity).

Definition console_log (line : Line) : Action := fun st => (st, [Log line]).

Definition set_temperature (t : float) : Action :=
  fun st =>
    ({| observers := observers st; temperature := t; humidity := humidity st |},
     [Assign temperature_field t]).

Definition set_humidity (h : float) : Action :=
  fun st =>
    ({| observers := observers st; temperature := temperature st; humidity := h |},
     [Assign humidity_field h]).

Definition set_observers (l : list Observer) : Action :=
  fun st =>
    ({| observers := l; temperature := temperature st; humidity := humidity st |}, []).

(** [update] of the three observers: each prints its own rendering. *)
Definition update (o : Observer) (t h : float) : Action :=
  (fun st => (st, [Update o t h])) ;;
  match class o with
  | PhoneDisplay =>
      console_log [Txt "📱 Phone: "; Num t; Txt "°C, "; Num h; Txt "% humidity"]
  | WebDisplay =>
      console_log [Txt "🌐 Website: Temperature "; Num t; Txt "°C, Humidity "; Num h; Txt "%"]
  | TVDisplay =>
      console_log [Txt "📺 TV: NOW "; Num t; Txt "°C"]
  end.

(** [Array.prototype.indexOf]: the first index whose element is the
    argument, [-1] when there is none. *)
Fixpoint indexOf_from (i : Z) (l : list Observer) (o : Observer) : Z :=
  match l with
  | [] => (-1)%Z
  | x :: l' => if same x o then i else indexOf_from (i + 1)%Z l' o
  end.

Definition indexOf (l : list Observer) (o : Observer) : Z := indexOf_from 0%Z l o.

(** [l.splice(index, 1)] for an index within the array. *)
Definition splice1 (l : list Observer) (index : Z) : list Observer :=
  firstn (Z.to_nat index) l ++ skipn (S (Z.to_nat index)) l.

Definition registerObserver (observer : Observer) : Action :=
  (fun st => set_observers (observers st ++ [observer]) st) ;;
  console_log [Txt (getName observer ++ " subscribed")].

Definition removeObserver (observer : Observer) : Action :=
  fun st =>
    let index := indexOf (observers st) observer in
    if (index >? -1)%Z then
      (set_observers (splice1 (observers st) index) ;;
       console_log [Txt (getName observer ++ " unsubscribed")]) st
    else skip st.

(** [for (const observer of l) body(observer)]. *)
Fixpoint for_of (l : list Observer) (body : Observer -> Action) : Action :=
  match l with
  | [] => skip
  | observer :: l' => body observer ;; for_of l' body
  end.

Definition notifyObservers : Action :=
  console_log [Txt (nl ++ "Notifying all observers..." ++ nl)] ;;
  fun st =>
    for_of (observers st)
      (fun observer st' => update observer (temperature st') (humidity st') st') st.

Definition setMeasurements (t h : float) : Action :=
  console_log [Txt (nl ++ "  New weather data: "); Num t; Txt "°C, "; Num h; Txt "%"] ;;
  set_temperature t ;;
  set_humidity h ;;
  notifyObservers.

(** Sequences of subscriptions and unsubscriptions. *)
Inductive Op : Type :=
| Register (o : Observer)
| Remove (o : Observer).

Definition apply (op : Op) : Action :=
  match op with
  | Register o => registerObserver o
  | Remove o => removeObserver o
  end.

Fixpoint run (ops : list Op) : Action :=
  match ops with
  | [] => skip
  | op :: ops' => apply op ;; run ops'
  end.

(** The calls of [update] in a trace, in order, with their arguments. *)
Definition updates (tr : list Event) : list (Observer * float * float) :=
  flat_map (fun e => match e with
                     | Update o t h => [(o, t, h)]
                     | _ => []
                     end) tr.

(** The specification's reading of the list of subscriptions: registering
    appends, removing drops the first matching entry if there is one. *)
Fixpoint remove_first (o : Observer) (l : list Observer) : list Observer :=
  match l with
  | [] => []
  | x :: l' => if same x o then l' else x :: remove_first o l'
  end.

Definition spec_registered_from (l : list Observer) (ops : list Op) : list Observer :=
  fold_left (fun l op => match op with
                         | Register o => l ++ [o]
                         | Remove o => remove_first o l
                         end) ops l.

Definition spec_registered (ops : list Op) : list Observer :=
  spec_registered_from [] ops.

(** The station once [setMeasurements t h] has stored its arguments. *)
Definition stored (t h : float) (st : WeatherStation) : WeatherStation :=
  {| observers := observers st; temperature := t; humidity := h |}.

(** The summary line of [setMeasurements]. *)
Definition summary (t h : float) : Line :=
  [Txt (nl ++ "  New weather data: "); Num t; Txt "°C, "; Num h; Txt "%"].

(** The order of steps the specification words for [setMeasurements]:
    both fields are stored, then the summary is printed, then the
    observers are notified. *)
Definition spec_steps (t h : float) (st : WeatherStation) : list Event :=
  [Assign temperature_field t; Assign humidity_field h; Log (summary t h)]
  ++ snd (notifyObservers (stored t h st)).

(** The three displays of the demonstration. *)
Definition phoneDisplay : Observer := {| ref := 0; class := PhoneDisplay |}.
Definition webDisplay : Observer := {| ref := 1; class := WebDisplay |}.
Definition tvDisplay : Observer := {| ref := 2; class := TVDisplay |}.

(** How many entries of a list are a given observer. *)
Definition count (o : Observer) (l : list Observer) : nat :=
  List.length (filter (fun x => same x o) l).

(** ** Properties of the station *)

Lemma indexOf_from_spec (l : list Observer) (o : Observer) (i : Z) :
  (0 <= i)%Z ->
  (existsb (fun x => same x o) l = false /\
   indexOf_from i l o = (-1)%Z /\ remove_first o l = l) \/
  (exists k : nat,
     existsb (fun x => same x o) l = true /\
     indexOf_from i l o = (i + Z.of_nat k)%Z /\
     firstn k l ++ skipn (S k) l = remove_first o l).
Proof.
  revert i; induction l as [| x l IH]; intros i Hi; simpl.
  - left; auto.
  - destruct (same x o) eqn:E; simpl.
    + right; exists 0%nat; simpl. rewrite Z.add_0_r; auto.
    + destruct (IH (i + 1)%Z ltac:(lia)) as [(H1 & H2 & H3) | (k & H1 & H2 & H3)].
      * left; rewrite H3; auto.
      * right; exists (S k). split; [exact H1 |]. split; [lia |].
        simpl; rewrite <- H3; reflexivity.
Qed.

(** [removeObserver] on the list of observers: the first matching entry
    goes, with one console line; nothing happens when there is none. *)
Lemma removeObserver_spec (o : Observer) (st : WeatherStation) :
  removeObserver o st =
  if existsb (fun x => same x o) (observers st)
  then ({| observers := remove_first o (observers st);
           temperature := temperature st; humidity := humidity st |},
        [Log [Txt (getName o ++ " unsubscribed")]])
  else (st, []).
Proof.
  unfold removeObserver, indexOf.
  destruct (indexOf_from_spec (observers st) o 0 ltac:(lia))
    as [(H1 & H2 & _) | (k & H1 & H2 & H3)]; rewrite H1, H2.
  - reflexivity.
  - replace (0 + Z.of_nat k >? -1)%Z with true
      by (symmetry; apply Z.gtb_lt; lia).
    cbv beta iota delta [seq set_observers console_log splice1].
    rewrite Z.add_0_l, Nat2Z.id, H3; reflexivity.
Qed.

Lemma registerObserver_spec (o : Observer) (st : WeatherStation) :
  registerObserver o st =
  ({| observers := observers st ++ [o];
      temperature := temperature st; humidity := humidity st |},
   [Log [Txt (getName o ++ " subscribed")]]).
Proof. reflexivity. Qed.

Lemma run_observers (ops : list Op) (st : WeatherStation) :
  observers (fst (run ops st)) = spec_registered_from (observers st) ops /\
  temperature (fst (run ops st)) = temperature st /\
  humidity (fst (run ops st)) = humidity st.
Proof.
  revert st; induction ops as [| op ops IH]; intros st; simpl.
  - auto.
  - unfold seq.
    destruct (apply op st) as [st1 tr1] eqn:E1.
    destruct (run ops st1) as [st2 tr2] eqn:E2.
    specialize (IH st1); rewrite E2 in IH; simpl in *.
    destruct IH as (IH1 & IH2 & IH3).
    assert (H : observers st1 = match op with
                                | Register o => observers st ++ [o]
                                | Remove o => remove_first o (observers st)
                                end /\
                temperature st1 = temperature st /\ humidity st1 = humidity st).
    { destruct op as [o | o]; simpl in E1.
      - rewrite registerObserver_spec in E1; inversion E1; subst; simpl; auto.
      - rewrite removeObserver_spec in E1.
        destruct (indexOf_from_spec (observers st) o 0 ltac:(lia))
          as [(H1 & _ & H3) | (k & H1 & _)]; rewrite H1 in E1;
          inversion E1; subst st1 tr1; simpl; auto. }
    destruct H as (H1 & H2 & H3).
    rewrite IH1, IH2, IH3, H1, H2, H3; auto.
Qed.

(** The loop of [notifyObservers] calls [update] on each element in turn
    and leaves the station as it is. *)
Lemma for_of_update (l : list Observer) (st : WeatherStation) :
  fst (for_of l (fun o st' => update o (temperature st') (humidity st') st') st) = st /\
  updates (snd (for_of l (fun o st' => update o (temperature st') (humidity st') st') st))
  = map (fun o => (o, temperature st, humidity st)) l.
Proof.
  induction l as [| o l IH]; simpl.
  - auto.
  - assert (H : exists tr1, update o (temperature st) (humidity st) st = (st, tr1) /\
                            updates tr1 = [(o, temperature st, humidity st)]).
    { unfold update, seq, console_log.
      destruct (class o); eexists; split; reflexivity. }
    destruct H as (tr1 & E1 & Htr).
    cbv beta delta [seq]; rewrite E1.
    destruct (for_of l _ st) as [st2 tr2]; simpl in *.
    destruct IH as (-> & IH). split; [reflexivity |].
    unfold updates in *; rewrite flat_map_app, Htr, IH; reflexivity.
Qed.

Lemma remove_first_split (o x : Observer) (l1 l2 : list Observer) :
  same x o = true ->
  (forall y, In y l1 -> same y o = false) ->
  remove_first o (l1 ++ x :: l2) = l1 ++ l2.
Proof.
  intros Hx; induction l1 as [| y l1 IH]; intros H; simpl.
  - rewrite Hx; reflexivity.
  - rewrite (H y (or_introl eq_refl)), IH; auto.
    intros z Hz; apply H; right; exact Hz.
Qed.

Lemma notifyObservers_spec (st : WeatherStation) :
  fst (notifyObservers st) = st /\
  updates (snd (notifyObservers st))
  = map (fun o => (o, temperature st, humidity st)) (observers st).
Proof.
  unfold notifyObservers, seq, console_log.
  destruct (for_of_update (observers st) st) as (H1 & H2).
  destruct (for_of (observers st) _ st) as [st2 tr2]; simpl in *.
  split; [exact H1 | exact H2].
Qed.

Lemma setMeasurements_spec (t h : float) (st : WeatherStation) :
  setMeasurements t h st =
  (stored t h st,
   [Log (summary t h); Assign temperature_field t; Assign humidity_field h]
   ++ snd (notifyObservers (stored t h st))).
Proof.
  unfold setMeasurements.
  cbv beta iota delta [seq console_log set_temperature set_humidity
                       observers temperature humidity].
  fold (observers st); fold (stored t h st).
  assert (H := proj1 (notifyObservers_spec (stored t h st))).
  destruct (notifyObservers (stored t h st)) as [st2 tr2]; simpl in *.
  rewrite H; reflexivity.
Qed.

(** C2: after any sequence of subscriptions and unsubscriptions on a new
    station, [setMeasurements t h] calls [update] with the pair [(t, h)] on
    exactly the observers registered at that point, in registration order
    with the removed entries left out; an observer registered twice is
    called twice; [removeObserver] drops only the first matching entry and
    prints one line, and does nothing and prints nothing when no entry
    matches. *)
Theorem notification_follows_registration (ops : list Op) (t h : float) :
  let st := fst (run ops new_WeatherStation) in
  observers st = spec_registered ops /\
  updates (snd (setMeasurements t h st))
  = map (fun o => (o, t, h)) (spec_registered ops) /\
  (forall o : Observer,
     updates (snd (setMeasurements t h
                     (fst (run (ops ++ [Register o; Register o]) new_WeatherStation))))
     = map (fun o => (o, t, h)) (spec_registered ops) ++ [(o, t, h); (o, t, h)]) /\
  (forall (o x : Observer) (l1 l2 : list Observer),
     observers st = l1 ++ x :: l2 ->
     same x o = true ->
     (forall y, In y l1 -> same y o = false) ->
     observers (fst (removeObserver o st)) = l1 ++ l2 /\
     snd (removeObserver o st) = [Log [Txt (getName o ++ " unsubscribed")]]) /\
  (forall o : Observer,
     (forall y, In y (observers st) -> same y o = false) ->
     removeObserver o st = (st, [])).
Proof.
  intro st.
  assert (Hobs : forall ops', observers (fst (run ops' new_WeatherStation))
                              = spec_registered ops').
  { intros ops'; exact (proj1 (run_observers ops' new_WeatherStation)). }
  assert (Hupd : forall st', updates (snd (setMeasurements t h st'))
                             = map (fun o => (o, t, h)) (observers st')).
  { intros st'; rewrite setMeasurements_spec; cbn [snd].
    unfold updates; rewrite flat_map_app; cbn [flat_map summary app].
    exact (proj2 (notifyObservers_spec (stored t h st'))). }
  split; [apply Hobs |].
  split; [rewrite Hupd; unfold st; rewrite Hobs; reflexivity |].
  split; [| split].
  - intros o. rewrite Hupd, Hobs.
    unfold spec_registered, spec_registered_from.
    rewrite fold_left_app; cbn [fold_left].
    rewrite !map_app, <- app_assoc; reflexivity.
  - intros o x l1 l2 Hl Hx Hl1.
    rewrite removeObserver_spec, Hl.
    replace (existsb (fun y => same y o) (l1 ++ x :: l2)) with true.
    + cbn [fst snd observers]. rewrite remove_first_split; auto.
    + symmetry; apply existsb_exists; exists x; split; [| exact Hx].
      apply in_or_app; right; left; reflexivity.
  - intros o Hno. rewrite removeObserver_spec.
    replace (existsb (fun y => same y o) (observers st)) with false; [reflexivity |].
    symmetry. apply not_true_is_false. intros H.
    apply existsb_exists in H. destruct H as (y & Hy & Hs).
    rewrite (Hno y Hy) in Hs; discriminate.
Qed.

(** C7 as the specification words it fails: on a new station with the
    phone display subscribed, [setMeasurements 25 65] prints the summary
    line first and stores the two fields after it. *)
Lemma setMeasurements_prints_before_storing :
  let st := fst (registerObserver phoneDisplay new_WeatherStation) in
  let tr := snd (setMeasurements 25 65 st) in
  nth_error tr 0 = Some (Log (summary 25 65)) /\
  nth_error tr 1 = Some (Assign temperature_field 25) /\
  nth_error tr 2 = Some (Assign humidity_field 65) /\
  (tr = spec_steps 25 65 st -> False).
Proof.
  cbv zeta. repeat split. intros H; vm_compute in H; discriminate H.
Qed.

(** C7, amended: [setMeasurements t h] prints the summary line, then
    stores the temperature and the humidity, then runs [notifyObservers]
    on the station that holds the new pair, so that every call of [update]
    carries [(t, h)]. *)
Theorem setMeasurements_steps (t h : float) (st : WeatherStation) :
  snd (setMeasurements t h st)
  = [Log (summary t h); Assign temperature_field t; Assign humidity_field h]
    ++ snd (notifyObservers (stored t h st)) /\
  fst (setMeasurements t h st) = stored t h st /\
  updates (snd (notifyObservers (stored t h st)))
  = map (fun o => (o, t, h)) (observers st) /\
  (exists rest, snd (notifyObservers (stored t h st))
                = Log [Txt (nl ++ "Notifying all observers..." ++ nl)] :: rest).
Proof.
  rewrite setMeasurements_spec; cbn [fst snd].
  split; [reflexivity |]. split; [reflexivity |].
  split; [exact (proj2 (notifyObservers_spec (stored t h st))) |].
  unfold notifyObservers, seq, console_log.
  destruct (for_of _ _ _) as [st2 tr2]; cbn [snd app].
  eexists; reflexivity.
Qed.

(** ** Further properties of the station *)

Lemma same_refl (o : Observer) : same o o = true.
Proof. apply Nat.eqb_refl. Qed.

Lemma same_trans (x o o' : Observer) : same o o' = true -> same x o = same x o'.
Proof.
  unfold same. intros H. apply Nat.eqb_eq in H. rewrite H. reflexivity.
Qed.

Lemma remove_first_appended (o : Observer) (l : list Observer) :
  remove_first o (l ++ [o])
  = if existsb (fun x => same x o) l then remove_first o l ++ [o] else l.
Proof.
  induction l as [| x l IH]; simpl.
  - rewrite same_refl; reflexivity.
  - destruct (same x o); simpl; [reflexivity |].
    rewrite IH. destruct (existsb _ l); reflexivity.
Qed.

(** X7: Subscribing an observer and then unsubscribing it restores the
    station when the observer was not subscribed before.  When it was, the
    removal takes the earliest entry and the new entry stays at the end:
    the list keeps its length, and the observer moves to the end of the
    notification order, as from phone, web to web, phone.  The list is the
    same again when its only entry of the observer was the last one, as
    for the list of the phone alone.  The removal always prints its
    line. *)
Theorem subscribe_then_unsubscribe (o : Observer) (st : WeatherStation) :
  let st1 := fst (registerObserver o st) in
  let st2 := fst (removeObserver o st1) in
  snd (removeObserver o st1) = [Log [Txt (getName o ++ " unsubscribed")]] /\
  (existsb (fun x => same x o) (observers st) = false -> st2 = st) /\
  (existsb (fun x => same x o) (observers st) = true ->
   observers st2 = remove_first o (observers st) ++ [o]) /\
  List.length (observers st2) = List.length (observers st) /\
  (forall l : list Observer,
     observers st = l ++ [o] -> existsb (fun x => same x o) l = false -> st2 = st) /\
  (let two := {| observers := [phoneDisplay; webDisplay];
                 temperature := 0; humidity := 0 |} in
   observers (fst (removeObserver phoneDisplay (fst (registerObserver phoneDisplay two))))
   = [webDisplay; phoneDisplay]) /\
  (let one := {| observers := [phoneDisplay]; temperature := 0; humidity := 0 |} in
   fst (removeObserver phoneDisplay (fst (registerObserver phoneDisplay one))) = one).
Proof.
  intros st1 st2. unfold st2, st1.
  rewrite registerObserver_spec; cbn [fst].
  rewrite removeObserver_spec; cbn [observers temperature humidity].
  assert (He : existsb (fun x => same x o) (observers st ++ [o]) = true).
  { rewrite existsb_app; simpl. rewrite same_refl. apply orb_true_iff; right; reflexivity. }
  rewrite He; cbn [fst snd]. rewrite remove_first_appended.
  split; [reflexivity |].
  split; [| split; [| split; [| split; [| split]]]].
  - intros ->. destruct st; reflexivity.
  - intros ->. reflexivity.
  - cbn [observers].
    destruct (existsb (fun x => same x o) (observers st)) eqn:E; [| reflexivity].
    rewrite length_app; simpl.
    clear He. induction (observers st) as [| x l IH]; simpl in *; [discriminate |].
    destruct (same x o); simpl in *; [lia |].
    rewrite <- (IH E); lia.
  - intros l Hl Hn. rewrite Hl. rewrite remove_first_appended, Hn.
    assert (E : existsb (fun x => same x o) (l ++ [o]) = true).
    { rewrite existsb_app; simpl. rewrite same_refl. apply orb_true_iff; right; reflexivity. }
    rewrite E. destruct st; simpl in *; rewrite Hl; reflexivity.
  - reflexivity.
  - reflexivity.
Qed.

Lemma count_remove_first (o o' : Observer) (l : list Observer) :
  count o' (remove_first o l) = count o' l - (if same o o' then 1 else 0).
Proof.
  unfold count. induction l as [| x l IH]; simpl.
  - reflexivity.
  - destruct (same x o) eqn:E.
    + destruct (same o o') eqn:E'.
      * rewrite <- (same_trans x o o' E'), E. simpl. lia.
      * assert (Hx : same x o' = false).
        { unfold same in *. apply Nat.eqb_eq in E. rewrite E. exact E'. }
        rewrite Hx. lia.
    + simpl. destruct (same x o') eqn:Ex; simpl; rewrite IH.
      * destruct (same o o') eqn:E'; [| lia].
        rewrite (same_trans x o o' E') in E. congruence.
      * reflexivity.
Qed.

(** X8: [removeObserver o] takes away exactly one entry of [o], if there is
    one, and no entry of any other observer; [registerObserver o] adds
    exactly one entry of [o].  An observer subscribed twice therefore stays
    subscribed after one removal. *)
Theorem subscriptions_are_counted (o o' : Observer) (st : WeatherStation) :
  count o' (observers (fst (removeObserver o st)))
  = count o' (observers st) - (if same o o' then 1 else 0) /\
  count o' (observers (fst (registerObserver o st)))
  = count o' (observers st) + (if same o o' then 1 else 0) /\
  count o (observers (fst (removeObserver o
             (fst (registerObserver o (fst (registerObserver o st)))))))
  = S (count o (observers st)).
Proof.
  assert (Hrem : forall st0, count o' (observers (fst (removeObserver o st0)))
                             = count o' (observers st0) - (if same o o' then 1 else 0)).
  { intros st0. rewrite removeObserver_spec.
    destruct (indexOf_from_spec (observers st0) o 0 ltac:(lia))
      as [(H1 & _ & H3) | (k & H1 & _)]; rewrite H1; cbn [fst observers].
    - rewrite <- H3 at 1. apply count_remove_first.
    - apply count_remove_first. }
  assert (Hreg : forall x st0, count x (observers (fst (registerObserver o st0)))
                               = count x (observers st0) + (if same o x then 1 else 0)).
  { intros x st0. rewrite registerObserver_spec; cbn [fst observers].
    unfold count. rewrite filter_app, length_app; simpl.
    destruct (same o x); reflexivity. }
  split; [apply Hrem |]. split; [apply Hreg |].
  clear Hrem.
  assert (Hrem : forall st0, count o (observers (fst (removeObserver o st0)))
                             = count o (observers st0) - 1).
  { intros st0. rewrite removeObserver_spec.
    destruct (indexOf_from_spec (observers st0) o 0 ltac:(lia))
      as [(H1 & _ & H3) | (k & H1 & _)]; rewrite H1; cbn [fst observers].
    - rewrite <- H3 at 1. rewrite count_remove_first, same_refl; reflexivity.
    - rewrite count_remove_first, same_refl; reflexivity. }
  rewrite Hrem, !Hreg, same_refl. lia.
Qed.

End ObserverPattern.


(** * Factory pattern: [factory-pattern.ts] *)

Module FactoryPattern.

(** The four concrete notifications; they hold no data. *)
Inductive Notification : Type :=
| EmailNotification
| SMSNotification
| PushNotification
| WhatsAppNotification.

Definition getType (n : Notification) : string :=
  match n with
  | EmailNotification => "Email"
  | SMSNotification => "SMS"
  | PushNotification => "Push"
  | WhatsAppNotification => "WhatsApp"
  end.

(** The type code of a notification class. *)
Definition code (n : Notification) : string :=
  match n with
  | EmailNotification => "EMAIL"
  | SMSNotification => "SMS"
  | PushNotification => "PUSH"
  | WhatsAppNotification => "WHATSAPP"
  end.

(** A string made of ASCII letters only. *)
Definition all_letters (s : jsstring) : bool :=
  forallb (fun c => is_upper c || is_lower c) s.

Section Factory.

(** [String.prototype.toUpperCase] of the runtime. *)
Variable toUpperCase : jsstring -> jsstring.

(** [NotificationFactory.createNotification]: a [switch] on the
    upper-cased argument, the cases tried in order. *)
Definition createNotification (type : jsstring) : Result Notification :=
  let upper := toUpperCase type in
  if jseqb upper (js "EMAIL") then Ok EmailNotification
  else if jseqb upper (js "SMS") then Ok SMSNotification
  else if jseqb upper (js "PUSH") then Ok PushNotification
  else if jseqb upper (js "WHATSAPP") then Ok WhatsAppNotification
  else Throw (js "Unknown notification type: " ++ type).

(** ** Properties of the factory *)

Lemma createNotification_upper (s : jsstring) (n : Notification) :
  createNotification s = Ok n <-> toUpperCase s = js (code n).
Proof.
  unfold createNotification; cbv zeta.
  destruct (jseqb_spec (toUpperCase s) (js "EMAIL")) as [E1 | E1];
    [| destruct (jseqb_spec (toUpperCase s) (js "SMS")) as [E2 | E2];
       [| destruct (jseqb_spec (toUpperCase s) (js "PUSH")) as [E3 | E3];
          [| destruct (jseqb_spec (toUpperCase s) (js "WHATSAPP")) as [E4 | E4]]]];
    destruct n; cbn [code]; split; intros H;
    try reflexivity; try congruence; try discriminate H;
    try (rewrite H in *; discriminate).
Qed.

Lemma createNotification_message (s message : jsstring) :
  createNotification s = Throw message ->
  message = js "Unknown notification type: " ++ s.
Proof.
  unfold createNotification; cbv zeta.
  destruct (jseqb (toUpperCase s) (js "EMAIL")); [discriminate |].
  destruct (jseqb (toUpperCase s) (js "SMS")); [discriminate |].
  destruct (jseqb (toUpperCase s) (js "PUSH")); [discriminate |].
  destruct (jseqb (toUpperCase s) (js "WHATSAPP")); [discriminate |].
  intros H; inversion H; reflexivity.
Qed.

Lemma createNotification_rejects (s : jsstring) :
  createNotification s = Throw (js "Unknown notification type: " ++ s)
  <-> forall n : Notification, createNotification s <> Ok n.
Proof.
  split.
  - intros H n E. rewrite H in E; discriminate E.
  - intros H. destruct (createNotification s) as [n | message] eqn:E.
    + destruct (H n eq_refl).
    + rewrite (createNotification_message s message E); reflexivity.
Qed.

(** From here on the upper-casing is the one of the language on ASCII
    text. *)
Hypothesis toUpperCase_ascii : upper_casing toUpperCase.

Lemma code_upper (n : Notification) : toUpperCase (js (code n)) = js (code n).
Proof. rewrite toUpperCase_ascii; destruct n; reflexivity. Qed.

Lemma getType_upper (n : Notification) : toUpperCase (js (getType n)) = js (code n).
Proof. rewrite toUpperCase_ascii; destruct n; reflexivity. Qed.

Lemma createNotification_ascii (s : jsstring) (n : Notification) :
  ascii_only s = true ->
  (createNotification s = Ok n <-> matches_ignoring_case s (js (code n)) = true).
Proof.
  intros Hs. rewrite createNotification_upper, matches_ignoring_case_upper.
  rewrite (toUpperCase_ascii s Hs). destruct n; reflexivity.
Qed.

(** C3: [createNotification s] returns the Email, SMS, Push or WhatsApp
    notification exactly when [s] has the upper case of EMAIL, SMS, PUSH or
    WHATSAPP, which is how the code matches without regard to case; every
    [s] that matches the code letter by letter up to the case of the
    letters is accepted, and an ASCII [s] is accepted exactly then.  For
    every other [s] the factory throws the error whose message is
    "Unknown notification type: " followed by [s] itself.  So "email" and
    "EMAIL" both give the Email notification (whose type is "Email"), and
    "fax" throws. *)
Theorem createNotification_spec (s : jsstring) :
  (forall n : Notification,
     createNotification s = Ok n <-> toUpperCase s = toUpperCase (js (code n))) /\
  (forall n : Notification,
     matches_ignoring_case s (js (code n)) = true -> createNotification s = Ok n) /\
  (ascii_only s = true ->
   forall n : Notification,
     createNotification s = Ok n <-> matches_ignoring_case s (js (code n)) = true) /\
  (createNotification s = Throw (js "Unknown notification type: " ++ s)
   <-> forall n : Notification, toUpperCase s <> toUpperCase (js (code n))) /\
  (forall message : jsstring,
     createNotification s = Throw message ->
     message = js "Unknown notification type: " ++ s) /\
  createNotification (js "email") = Ok EmailNotification /\
  createNotification (js "EMAIL") = Ok EmailNotification /\
  getType EmailNotification = "Email" /\
  createNotification (js "fax") = Throw (js "Unknown notification type: fax").
Proof.
  assert (Hok : forall n, createNotification s = Ok n
                          <-> toUpperCase s = toUpperCase (js (code n))).
  { intros n. rewrite code_upper. apply createNotification_upper. }
  split; [exact Hok |]. split; [| split; [| split; [| split]]].
  - intros n H.
    apply createNotification_ascii; [| exact H].
    apply (matches_ignoring_case_ascii s (js (code n)) H). destruct n; reflexivity.
  - intros Hs n. apply createNotification_ascii; exact Hs.
  - rewrite createNotification_rejects. split; intros H n E; apply (H n), Hok, E.
  - apply createNotification_message.
  - split; [apply createNotification_ascii; reflexivity |].
    split; [apply createNotification_ascii; reflexivity |].
    split; [reflexivity |].
    apply (createNotification_rejects (js "fax")). intros n E.
    apply createNotification_ascii in E; [| reflexivity].
    destruct n; discriminate E.
Qed.

(** ** Further properties of the factory *)

(** X9: The factory accepts the type code of every notification and also the
    display name that the notification reports through [getType], and
    gives back that notification. *)
Theorem factory_round_trip (n : Notification) :
  createNotification (js (code n)) = Ok n /\
  createNotification (js (getType n)) = Ok n /\
  (forall s : jsstring, createNotification s = Ok n ->
                        toUpperCase s = toUpperCase (js (getType n))).
Proof.
  split; [apply createNotification_upper, code_upper |].
  split; [apply createNotification_upper, getType_upper |].
  intros s H. apply createNotification_upper in H. rewrite H.
  symmetry; apply getType_upper.
Qed.

(** X10: On ASCII input the factory does no other normalisation than the
    case of letters: an accepted ASCII input has exactly the length of the
    type code and consists of letters only.  So an input with surrounding
    white space is not trimmed but rejected, and so is the empty string. *)
Theorem accepted_inputs_are_bare_codes (s : jsstring) (n : Notification) :
  ascii_only s = true ->
  createNotification s = Ok n ->
  List.length s = List.length (js (code n)) /\
  all_letters s = true /\
  (forall c s', s = c :: s' -> is_whitespace c = false) /\
  createNotification (js " sms") = Throw (js "Unknown notification type:  sms") /\
  createNotification (js "sms ") = Throw (js "Unknown notification type: sms ") /\
  createNotification (js "") = Throw (js "Unknown notification type: ").
Proof.
  intros Hs H. apply (createNotification_ascii s n Hs) in H.
  assert (Hl : all_letters s = true).
  { apply (matches_ignoring_case_letters s (js (code n)) H). destruct n; reflexivity. }
  split; [exact (matches_ignoring_case_length s (js (code n)) H) |].
  split; [exact Hl |].
  split.
  - intros c s' ->. unfold all_letters in Hl. cbn [forallb] in Hl.
    apply andb_true_iff in Hl. destruct Hl as (Hc & _).
    apply letter_not_whitespace; exact Hc.
  - assert (R : forall t : jsstring, ascii_only t = true ->
                  (forall k, matches_ignoring_case t (js (code k)) = false) ->
                  createNotification t = Throw (js "Unknown notification type: " ++ t)).
    { intros t Ht Hk. apply createNotification_rejects. intros k E.
      apply (createNotification_ascii t k Ht) in E. rewrite Hk in E; discriminate E. }
    split; [| split]; apply R; try reflexivity; intros k; destruct k; reflexivity.
Qed.

(** X11: Two ASCII inputs that differ only in the case of letters are
    accepted together, as the same notification, or rejected together; a
    rejection reports each input as it was given. *)
Theorem case_variants_agree (s s' : jsstring) :
  ascii_only s = true ->
  matches_ignoring_case s s' = true ->
  (forall n : Notification, createNotification s = Ok n <-> createNotification s' = Ok n) /\
  (forall message : jsstring,
     createNotification s = Throw message ->
     message = js "Unknown notification type: " ++ s /\
     createNotification s' = Throw (js "Unknown notification type: " ++ s')) /\
  (forall message : jsstring,
     createNotification s' = Throw message ->
     message = js "Unknown notification type: " ++ s' /\
     createNotification s = Throw (js "Unknown notification type: " ++ s)).
Proof.
  intros Hs H.
  assert (Hs' : ascii_only s' = true).
  { apply (matches_ignoring_case_ascii s' s); [| exact Hs].
    apply matches_ignoring_case_upper. symmetry.
    apply matches_ignoring_case_upper; exact H. }
  apply matches_ignoring_case_upper in H.
  assert (Hn : forall n, createNotification s = Ok n <-> createNotification s' = Ok n).
  { intros n. rewrite !createNotification_upper.
    rewrite (toUpperCase_ascii s Hs), (toUpperCase_ascii s' Hs'), H. reflexivity. }
  split; [exact Hn |]. split; intros message E.
  - split; [exact (createNotification_message s message E) |].
    apply createNotification_rejects. intros n E'. apply Hn in E'.
    rewrite E in E'; discriminate E'.
  - split; [exact (createNotification_message s' message E) |].
    apply createNotification_rejects. intros n E'. apply Hn in E'.
    rewrite E in E'; discriminate E'.
Qed.

End Factory.

(** The long s has the upper case S: where the runtime knows it, "ſms" is
    accepted as the SMS notification. *)
Lemma createNotification_spec_witness :
  createNotification sample_toUpperCase [383; 109; 115]%N = Ok SMSNotification.
Proof.
  apply (proj1 (createNotification_spec sample_toUpperCase sample_upper_casing
                  [383; 109; 115]%N) SMSNotification).
  reflexivity.
Defined.

Lemma factory_round_trip_witness :
  createNotification sample_toUpperCase (js "WHATSAPP") = Ok WhatsAppNotification /\
  createNotification sample_toUpperCase (js "WhatsApp") = Ok WhatsAppNotification.
Proof.
  split;
    apply (factory_round_trip sample_toUpperCase sample_upper_casing WhatsAppNotification).
Defined.

Lemma accepted_inputs_are_bare_codes_witness :
  List.length (js "sms") = List.length (js (code SMSNotification)) /\
  all_letters (js "sms") = true.
Proof.
  pose proof (accepted_inputs_are_bare_codes sample_toUpperCase sample_upper_casing
                (js "sms") SMSNotification eq_refl eq_refl) as H.
  exact (conj (proj1 H) (proj1 (proj2 H))).
Defined.

Lemma case_variants_agree_witness :
  createNotification sample_toUpperCase (js "Push") = Ok PushNotification <->
  createNotification sample_toUpperCase (js "pUSH") = Ok PushNotification.
Proof.
  exact (proj1 (case_variants_agree sample_toUpperCase sample_upper_casing
                  (js "Push") (js "pUSH") eq_refl eq_refl) PushNotification).
Defined.

End FactoryPattern.

(** * Builder pattern: [UserBuilder] and [User] *)

Module BuilderPattern.

(** [class UserBuilder].  A field that was never assigned is [undefined],
    here [None]; the name is whatever the constructor was given, which for
    a caller outside the type checker may be [undefined] too.  The name is
    the one string that the code inspects. *)
Record UserBuilder : Type := {
  name : option jsstring;
  age : option float;
  phone : option string;
  address : option string
}.

(** [class User]: the constructor copies the four fields of the builder. *)
Record User : Type := {
  User_name : option jsstring;
  User_age : option float;
  User_phone : option string;
  User_address : option string
}.

Definition new_User (builder : UserBuilder) : User :=
  {| User_name := name builder;
     User_age := age builder;
     User_phone := phone builder;
     User_address := address builder |}.

Definition new_UserBuilder (n : option jsstring) : UserBuilder :=
  {| name := n; age := None; phone := None; address := None |}.

(** The setters assign one field and return the builder itself. *)
Definition setAge (a : float) (this : UserBuilder) : UserBuilder :=
  {| name := name this; age := Some a; phone := phone this; address := address this |}.

Definition setPhone (p : string) (this : UserBuilder) : UserBuilder :=
  {| name := name this; age := age this; phone := Some p; address := address this |}.

Definition setAddress (a : string) (this : UserBuilder) : UserBuilder :=
  {| name := name this; age := age this; phone := phone this; address := Some a |}.

(** [build]: the guard is [!this.name || this.name.trim() === ''], where
    [!v] holds of [undefined] and of the empty string. *)
Definition build (this : UserBuilder) : Result User :=
  match name this with
  | None => Throw (js "Name is required!")
  | Some s =>
      if jseqb s (js "") || jseqb (trim s) (js "")
      then Throw (js "Name is required!")
      else Ok (new_User this)
  end.

(** Chains of setter calls. *)
Inductive Setter : Type :=
| SetAge (a : float)
| SetPhone (p : string)
| SetAddress (a : string).

Definition call (this : UserBuilder) (s : Setter) : UserBuilder :=
  match s with
  | SetAge a => setAge a this
  | SetPhone p => setPhone p this
  | SetAddress a => setAddress a this
  end.

Definition chain (ss : list Setter) (this : UserBuilder) : UserBuilder :=
  fold_left call ss this.

(** The specification's reading: a name is rejected when it is absent or
    blank (nothing but white space and line terminators as the language
    standard lists them), and each optional field holds the value of the last call of its
    setter, or nothing when its setter was never called. *)
Definition absent_or_blank (n : option jsstring) : bool :=
  match n with
  | None => true
  | Some s => blank s
  end.

Definition last_set {A : Type} (pick : Setter -> option A) (ss : list Setter) : option A :=
  fold_left (fun acc s => match pick s with
                          | Some v => Some v
                          | None => acc
                          end) ss None.

Definition age_of (s : Setter) : option float :=
  match s with SetAge a => Some a | _ => None end.

Definition phone_of (s : Setter) : option string :=
  match s with SetPhone p => Some p | _ => None end.

Definition address_of (s : Setter) : option string :=
  match s with SetAddress a => Some a | _ => None end.

(** Whether two setter calls assign the same field. *)
Definition same_field (s1 s2 : Setter) : bool :=
  match s1, s2 with
  | SetAge _, SetAge _ | SetPhone _, SetPhone _ | SetAddress _, SetAddress _ => true
  | _, _ => false
  end.

(** ** Properties of the builder *)

Lemma build_any (b : UserBuilder) :
  (build b = Throw (js "Name is required!") <-> absent_or_blank (name b) = true) /\
  (absent_or_blank (name b) = false -> build b = Ok (new_User b)).
Proof.
  unfold build, absent_or_blank.
  destruct (name b) as [s |]; [| split; [split; reflexivity | discriminate]].
  assert (H : jseqb s (js "") || jseqb (trim s) (js "") = blank s).
  { destruct (blank s) eqn:B.
    - apply trim_blank in B. rewrite B; simpl. apply orb_true_r.
    - destruct (jseqb_spec s (js "")) as [-> | _]; [discriminate B |].
      destruct (jseqb_spec (trim s) (js "")) as [E | _]; [| reflexivity].
      apply trim_blank in E; congruence. }
  rewrite H. destruct (blank s); split; try split; auto; discriminate.
Qed.

Lemma chain_fields (ss : list Setter) (b : UserBuilder) :
  name (chain ss b) = name b /\
  age (chain ss b)
  = fold_left (fun acc s => match age_of s with Some v => Some v | None => acc end) ss (age b) /\
  phone (chain ss b)
  = fold_left (fun acc s => match phone_of s with Some v => Some v | None => acc end) ss (phone b) /\
  address (chain ss b)
  = fold_left (fun acc s => match address_of s with Some v => Some v | None => acc end) ss (address b).
Proof.
  revert b; induction ss as [| s ss IH]; intros b; simpl.
  - auto.
  - destruct (IH (call b s)) as (H1 & H2 & H3 & H4).
    unfold chain in *. rewrite H1, H2, H3, H4.
    destruct s; simpl; auto.
Qed.

(** C4: [build] throws exactly when the name is absent or blank (white
    space only, the empty string included); otherwise it returns the user
    that copies the builder: its name, and for age, phone and address the
    value of the last call of the setter before [build], absent when the
    setter was never called.  The two runs of the specification: Alice
    with age 28 and an address has no phone, and the empty name throws.
    So do a name of three spaces, one of a tab and a line feed, and one
    that is a no-break space; a name with text between spaces is kept as
    given, and an underscore is no white space. *)
Theorem build_spec (n : option jsstring) (ss : list Setter) :
  let b := chain ss (new_UserBuilder n) in
  (build b = Throw (js "Name is required!") <-> absent_or_blank n = true) /\
  (absent_or_blank n = false ->
   build b = Ok {| User_name := n;
                   User_age := last_set age_of ss;
                   User_phone := last_set phone_of ss;
                   User_address := last_set address_of ss |}) /\
  (forall b' : UserBuilder,
     (build b' = Throw (js "Name is required!") <-> absent_or_blank (name b') = true) /\
     (absent_or_blank (name b') = false ->
      build b' = Ok {| User_name := name b'; User_age := age b';
                       User_phone := phone b'; User_address := address b' |})) /\
  build (setAddress "123 Main St" (setAge 28 (new_UserBuilder (Some (js "Alice")))))
  = Ok {| User_name := Some (js "Alice"); User_age := Some 28%float;
          User_phone := None; User_address := Some "123 Main St" |} /\
  build (new_UserBuilder (Some (js ""))) = Throw (js "Name is required!") /\
  build (new_UserBuilder (Some (js "   "))) = Throw (js "Name is required!") /\
  build (new_UserBuilder (Some [9; 10]%N)) = Throw (js "Name is required!") /\
  build (new_UserBuilder (Some [160]%N)) = Throw (js "Name is required!") /\
  build (setPhone "555" (new_UserBuilder (Some (js " Al ice "))))
  = Ok {| User_name := Some (js " Al ice "); User_age := None;
          User_phone := Some "555"; User_address := None |} /\
  build (new_UserBuilder (Some (js "_")))
  = Ok {| User_name := Some (js "_"); User_age := None;
          User_phone := None; User_address := None |}.
Proof.
  intro b.
  destruct (chain_fields ss (new_UserBuilder n)) as (H1 & H2 & H3 & H4).
  fold b in H1, H2, H3, H4. simpl in H1, H2, H3, H4.
  destruct (build_any b) as (Ha & Hb). rewrite H1 in Ha, Hb.
  split; [exact Ha |]. split; [| split; [exact build_any |]].
  - intros Hn. rewrite (Hb Hn). unfold new_User, last_set.
    rewrite H1, H2, H3, H4; reflexivity.
  - repeat split.
Qed.

(** ** Further properties of the builder *)

(** X12: Setter calls on different fields can be made in either order, a
    second call on the same field replaces the first, and no setter
    touches the name: the user that [build] returns depends on the last
    value given to each field only. *)
Theorem setters_compose (b : UserBuilder) (s1 s2 : Setter) :
  (same_field s1 s2 = false -> call (call b s1) s2 = call (call b s2) s1) /\
  (same_field s1 s2 = true -> call (call b s1) s2 = call b s2) /\
  name (call b s1) = name b /\
  (same_field s1 s2 = false ->
   build (chain [s1; s2] b) = build (chain [s2; s1] b)) /\
  (same_field s1 s2 = true ->
   build (chain [s1; s2] b) = build (chain [s2] b)).
Proof.
  destruct s1, s2; simpl; repeat split; intros; try reflexivity; discriminate.
Qed.

End BuilderPattern.

(** * Strategy pattern: [Strategy pattern.ts] *)

Module StrategyPattern.

(** The three concrete strategies; they hold no data. *)
Inductive RouteStrategy : Type :=
| CarRouteStrategy
| BikeRouteStrategy
| WalkingRouteStrategy.

Definition calculateRoute (this : RouteStrategy) (start end_ : string) : Line :=
  match this with
  | CarRouteStrategy => [Txt ("Car Route: " ++ start ++ " → " ++ end_)]
  | BikeRouteStrategy => [Txt ("Bike Route: " ++ start ++ " → " ++ end_)]
  | WalkingRouteStrategy => [Txt ("Walking Route: " ++ start ++ " → " ++ end_)]
  end.

Definition getEstimatedTime (this : RouteStrategy) (distance : float) : float :=
  match this with
  | CarRouteStrategy => let avgSpeed := 60%float in (distance / avgSpeed)%float
  | BikeRouteStrategy => let avgSpeed := 15%float in (distance / avgSpeed)%float
  | WalkingRouteStrategy => let avgSpeed := 5%float in (distance / avgSpeed)%float
  end.

(** [class Navigator] and a configuration: the navigator and the console. *)
Record Navigator : Type := { routeStrategy : RouteStrategy }.

Definition Machine : Type := (Navigator * list Line)%type.

Definition new_Navigator (strategy : RouteStrategy) : Navigator :=
  {| routeStrategy := strategy |}.

Definition console_log (line : Line) (m : Machine) : Machine :=
  (fst m, snd m ++ [line]).

Definition setRouteStrategy (strategy : RouteStrategy) (m : Machine) : Machine :=
  let m := ({| routeStrategy := strategy |}, snd m) in
  console_log [Txt (nl ++ "✅ Route strategy changed!" ++ nl)] m.

Definition buildRoute (start end_ : string) (distance : float) (m : Machine) : Machine :=
  let m := console_log (calculateRoute (routeStrategy (fst m)) start end_) m in
  let time := getEstimatedTime (routeStrategy (fst m)) distance in
  let m := console_log [Txt "Distance: "; Num distance; Txt " km"] m in
  console_log ([Txt "Estimated time: "] ++ toFixed time 1 ++ [Txt " hours"]) m.

(** The fixed average speed of each mode, in km/h, as the specification
    lists them. *)
Definition spec_speed (s : RouteStrategy) : float :=
  match s with
  | CarRouteStrategy => 60%float
  | BikeRouteStrategy => 15%float
  | WalkingRouteStrategy => 5%float
  end.

(** ** Properties of the strategies *)

(** C6: the estimated time of a strategy is the distance divided by the
    average speed of its mode (60, 15 and 5 km/h).  A navigator with the car
    strategy reports 0.5 hours for the 30 km from Home to Office, and once
    switched to the bike strategy it reports 2.0 hours for the same route. *)
Theorem estimated_time_spec (d : float) :
  (forall s : RouteStrategy, getEstimatedTime s d = (d / spec_speed s)%float) /\
  getEstimatedTime CarRouteStrategy d = (d / 60)%float /\
  getEstimatedTime BikeRouteStrategy d = (d / 15)%float /\
  getEstimatedTime WalkingRouteStrategy d = (d / 5)%float /\
  (let m1 := buildRoute "Home" "Office" 30 (new_Navigator CarRouteStrategy, []) in
   let m2 := buildRoute "Home" "Office" 30 (setRouteStrategy BikeRouteStrategy m1) in
   getEstimatedTime (routeStrategy (fst m1)) 30 = 0.5%float /\
   snd m1 = [ [Txt "Car Route: Home → Office"];
              [Txt "Distance: "; Num 30; Txt " km"];
              [Txt "Estimated time: "; Txt "0.5"; Txt " hours"] ] /\
   getEstimatedTime (routeStrategy (fst m2)) 30 = 2%float /\
   snd m2 = snd m1 ++
            [ [Txt (nl ++ "✅ Route strategy changed!" ++ nl)];
              [Txt "Bike Route: Home → Office"];
              [Txt "Distance: "; Num 30; Txt " km"];
              [Txt "Estimated time: "; Txt "2.0"; Txt " hours"] ]).
Proof.
  split; [intros s; destruct s; reflexivity |].
  do 3 (split; [reflexivity |]).
  cbv zeta. repeat split; vm_compute; reflexivity.
Qed.

(** ** Further properties of the navigator *)

Lemma last_cons (l : list RouteStrategy) (x d : RouteStrategy) :
  last (x :: l) d = last l x.
Proof.
  revert x d; induction l as [| y l IH]; intros x d; [reflexivity |].
  change (last (x :: y :: l) d) with (last (y :: l) d).
  rewrite (IH y d), (IH y x). reflexivity.
Qed.

(** X13: After any number of strategy changes the navigator holds the last
    strategy it was given (its own when there was no change), each change
    has printed the confirmation line and nothing else, and [buildRoute]
    prints three lines computed by that strategy and leaves the navigator
    as it is. *)
Theorem last_strategy_is_used
  (ss : list RouteStrategy) (m : Machine) (start end_ : string) (d : float) :
  let m' := fold_left (fun m s => setRouteStrategy s m) ss m in
  let s := last ss (routeStrategy (fst m)) in
  routeStrategy (fst m') = s /\
  snd m' = snd m ++ map (fun _ => [Txt (nl ++ "✅ Route strategy changed!" ++ nl)]) ss /\
  buildRoute start end_ d m'
  = (fst m',
     snd m' ++ [ calculateRoute s start end_;
                 [Txt "Distance: "; Num d; Txt " km"];
                 [Txt "Estimated time: "] ++ toFixed (getEstimatedTime s d) 1
                 ++ [Txt " hours"] ]).
Proof.
  intros m' s.
  assert (H : routeStrategy (fst m') = s /\
              snd m' = snd m ++ map (fun _ => [Txt (nl ++ "✅ Route strategy changed!" ++ nl)]) ss).
  { unfold m', s. clear. revert m.
    induction ss as [| x ss IH]; intros m.
    - simpl. split; [reflexivity | symmetry; apply app_nil_r].
    - cbn [fold_left]. destruct (IH (setRouteStrategy x m)) as (H1 & H2).
      rewrite H1, H2. unfold setRouteStrategy, console_log; cbn [fst snd routeStrategy map].
      rewrite <- app_assoc. split; [| reflexivity].
      symmetry; apply last_cons. }
  destruct H as (H1 & H2). split; [exact H1 |]. split; [exact H2 |].
  unfold buildRoute, console_log; cbn [fst snd]. rewrite H1.
  rewrite <- !app_assoc. reflexivity.
Qed.

End StrategyPattern.

(** * Overloading: [Calculator] *)

Module Polymorphism.

(** The two overloads of [add] admit two numbers or two strings. *)
Inductive Arguments : Type :=
| Numbers (a b : float)
| Strings (a b : string).

Inductive Value : Type :=
| VNumber (x : float)
| VString (s : string).

(** The one implementation is [a + b]: [+] adds two numbers and
    concatenates two strings. *)
Definition add (args : Arguments) : Value :=
  match args with
  | Numbers a b => VNumber (a + b)%float
  | Strings a b => VString (a ++ b)
  end.

(** ** Properties of the calculator *)

(** C8: on two numbers [add] returns their sum, on two strings their
    concatenation; [add(2, 3)] is 5 and [add("Hi ", "JS")] is "Hi JS", the
    space at the end of the first argument kept. *)
Theorem add_dispatches_on_argument_types :
  (forall a b : float, add (Numbers a b) = VNumber (a + b)%float) /\
  (forall a b : string, add (Strings a b) = VString (a ++ b)) /\
  (forall a b : string,
     match add (Strings a b) with
     | VString s => String.length s = String.length a + String.length b
     | VNumber _ => False
     end) /\
  add (Numbers 2 3) = VNumber 5 /\
  add (Strings "Hi " "JS") = VString "Hi JS".
Proof.
  split; [reflexivity |]. split; [reflexivity |].
  split; [| split; reflexivity].
  intros a b; simpl. induction a as [| c a IH]; simpl; [reflexivity |].
  rewrite IH; reflexivity.
Qed.

(** ** Further properties of the calculator *)

(** X14: On numbers [add] is commutative but not associative (the sum is
    rounded after each addition); on strings it is associative but not
    commutative. *)
Theorem add_algebra :
  (forall a b : float, add (Numbers a b) = add (Numbers b a)) /\
  (exists a b c : float,
     add (Numbers (a + b) c) <> add (Numbers a (b + c))) /\
  (forall a b c : string,
     add (Strings (a ++ b) c) = add (Strings a (b ++ c))) /\
  (exists a b : string, add (Strings a b) <> add (Strings b a)).
Proof.
  split; [intros a b; simpl; rewrite float_add_comm; reflexivity |].
  split.
  { exists 9007199254740992%float, 1%float, 1%float.
    intros H.
    apply (f_equal (fun v => match v with
                             | VNumber x => Prim2SF x
                             | VString _ => S754_nan
                             end)) in H.
    vm_compute in H. discriminate H. }
  split.
  { intros a b c; simpl. f_equal.
    induction a as [| x a IH]; simpl; [reflexivity | rewrite IH; reflexivity]. }
  exists "a", "b". discriminate.
Qed.

End Polymorphism.

(** * Open/closed principle: [open-closed.ts] *)

Module OpenClosed.

(** [Math.PI], the binary64 value nearest to pi. *)
Definition Math_PI : float := 0x1.921fb54442d18p+1%float.

(** [x ** 2].  The exponent 2 is computed as the product of the base with
    itself. *)
Definition square (x : float) : float := (x * x)%float.

(** [interface Shape]. *)
Class Shape (A : Type) : Type := { calculateArea : A -> float }.

Record Circle : Type := { radius : float }.

Record Rectangle : Type := { width : float; height : float }.

#[export] Instance Circle_Shape : Shape Circle :=
  {| calculateArea := fun this => (Math_PI * square (radius this))%float |}.

#[export] Instance Rectangle_Shape : Shape Rectangle :=
  {| calculateArea := fun this => (width this * height this)%float |}.

(** [AreaCalculator.calculateArea]: written once, for every shape. *)
Definition AreaCalculator_calculateArea {A : Type} `{Shape A} (shape : A) : float :=
  calculateArea shape.

(** ** Properties of the shapes *)

(** C9: the area of a circle is pi times the square of its radius and the
    area of a rectangle is its width times its height, in binary64
    arithmetic; the circle of radius 2 has the area 12.566 to three
    decimals, the 3 by 4 rectangle has the area 12; and the calculator
    returns the area that the shape itself computes, for every
    implementation of [Shape]. *)
Theorem area_spec :
  (forall r : float,
     calculateArea {| radius := r |} = (Math_PI * (r * r))%float) /\
  (forall w h : float,
     calculateArea {| width := w; height := h |} = (w * h)%float) /\
  (forall (A : Type) (S : Shape A) (shape : A),
     AreaCalculator_calculateArea shape = calculateArea shape) /\
  calculateArea {| radius := 2 |} = 0x1.921fb54442d18p+3%float /\
  toFixed (AreaCalculator_calculateArea {| radius := 2 |}) 3 = [Txt "12.566"] /\
  calculateArea {| width := 3; height := 4 |} = 12%float /\
  AreaCalculator_calculateArea {| width := 3; height := 4 |} = 12%float.
Proof.
  repeat split; vm_compute; reflexivity.
Qed.

(** ** Further properties of the shapes *)

(** X15: The area of a rectangle does not change when width and height are
    exchanged, and the area of a circle does not see the sign of the
    radius: a negative radius is not rejected, it gives the area of its
    magnitude. *)
Theorem area_symmetries (w h r : float) :
  calculateArea {| width := w; height := h |}
  = calculateArea {| width := h; height := w |} /\
  calculateArea {| radius := (- r)%float |} = calculateArea {| radius := r |} /\
  AreaCalculator_calculateArea {| radius := (- r)%float |}
  = AreaCalculator_calculateArea {| radius := r |}.
Proof.
  unfold AreaCalculator_calculateArea; simpl; unfold square.
  rewrite float_mul_opp_opp, (float_mul_comm w h). auto.
Qed.

End OpenClosed.

(** * Singleton pattern: [singleton-pattern.ts] *)

Module SingletonPattern.

(** A [DatabaseConnection] object. *)
Record DatabaseConnection : Type := { ref : nat; connectionId : float }.

(** The runtime: the private static field [instance] ([None] is [null]),
    the allocation counter, the values that [Math.random()] returns, in
    order, with the number of values returned so far, and the console. *)
Record Runtime : Type := {
  instance : option DatabaseConnection;
  next_ref : nat;
  random : nat -> float;
  drawn : nat;
  console : list Line
}.

Definition initial (values : nat -> float) : Runtime :=
  {| instance := None; next_ref := 0; random := values; drawn := 0; console := [] |}.

Definition console_log (line : Line) (rt : Runtime) : Runtime :=
  {| instance := instance rt; next_ref := next_ref rt; random := random rt;
     drawn := drawn rt; console := console rt ++ [line] |}.

Definition Math_random (rt : Runtime) : float * Runtime :=
  (random rt (drawn rt),
   {| instance := instance rt; next_ref := next_ref rt; random := random rt;
      drawn := S (drawn rt); console := console rt |}).

Definition allocate (rt : Runtime) : nat * Runtime :=
  (next_ref rt,
   {| instance := instance rt; next_ref := S (next_ref rt); random := random rt;
      drawn := drawn rt; console := console rt |}).

Definition set_instance (db : DatabaseConnection) (rt : Runtime) : Runtime :=
  {| instance := Some db; next_ref := next_ref rt; random := random rt;
     drawn := drawn rt; console := console rt |}.

(** The private constructor. *)
Definition new_DatabaseConnection (rt : Runtime) : DatabaseConnection * Runtime :=
  let (r, rt) := allocate rt in
  let (x, rt) := Math_random rt in
  let this := {| ref := r; connectionId := Math_floor (x * 1000) |} in
  (this, console_log [Txt "Database Instance Created. ID: "; Num (connectionId this)] rt).

Definition getInstance (rt : Runtime) : DatabaseConnection * Runtime :=
  match instance rt with
  | None =>
      let (db, rt) := new_DatabaseConnection rt in
      (db, set_instance db rt)
  | Some db => (db, rt)
  end.

Definition runQuery (this : DatabaseConnection) (sql : string) (rt : Runtime) : Runtime :=
  console_log [Txt "[ID: "; Num (connectionId this); Txt ("] Executing: " ++ sql)] rt.

(** The statement [DatabaseConnection.getInstance().runQuery(sql)], and a
    client that runs it for each query of a list. *)
Definition query (rt : Runtime) (sql : string) : Runtime :=
  let (db, rt) := getInstance rt in runQuery db sql rt.

Definition session (sqls : list string) (rt : Runtime) : Runtime :=
  fold_left query sqls rt.

(** ** Properties of the singleton *)

Lemma getInstance_cached (rt : Runtime) (db : DatabaseConnection) :
  instance rt = Some db -> getInstance rt = (db, rt).
Proof. unfold getInstance; intros ->; reflexivity. Qed.

Lemma getInstance_sets (rt : Runtime) :
  instance (snd (getInstance rt)) = Some (fst (getInstance rt)).
Proof.
  unfold getInstance. destruct (instance rt) as [db |] eqn:E; simpl; auto.
Qed.

(** C5: The first call of [getInstance], the one that finds the static
    field [null], constructs the instance: one allocation, one draw of
    [Math.random()], one creation line, and the instance is stored in the
    field.  When the draw is at least 0 and less than 1 the connection id
    is an integer that is at least 0 and less than 1000.  Every later call
    returns that same instance, with the same reference and connection id,
    and changes nothing: no allocation, no draw and no line follow, however
    many calls are made and whatever else the runtime has done in between,
    the field being assigned by [getInstance] alone. *)
Theorem getInstance_spec (rt : Runtime) (n : nat) :
  instance rt = None ->
  unit_interval (random rt (drawn rt)) = true ->
  let db := fst (getInstance rt) in
  let rt1 := snd (getInstance rt) in
  ref db = next_ref rt /\
  connectionId db = Math_floor (random rt (drawn rt) * 1000) /\
  (exists k : Z, (0 <= k < 1000)%Z /\ integer_value (connectionId db) = Some k) /\
  instance rt1 = Some db /\
  next_ref rt1 = S (next_ref rt) /\
  drawn rt1 = S (drawn rt) /\
  console rt1 = console rt ++ [[Txt "Database Instance Created. ID: ";
                                Num (connectionId db)]] /\
  getInstance rt1 = (db, rt1) /\
  Nat.iter n (fun st => snd (getInstance st)) rt1 = rt1 /\
  fst (getInstance (Nat.iter n (fun st => snd (getInstance st)) rt1)) = db /\
  (forall rt' : Runtime, instance rt' = instance rt1 -> getInstance rt' = (db, rt')).
Proof.
  intros Hi Hr db rt1.
  assert (Hs : instance rt1 = Some db) by apply getInstance_sets.
  assert (H1 : getInstance rt1 = (db, rt1)) by (apply getInstance_cached, Hs).
  assert (Hn : Nat.iter n (fun st => snd (getInstance st)) rt1 = rt1).
  { induction n as [| n IH]; simpl; [reflexivity |]. rewrite IH, H1; reflexivity. }
  assert (Hk : exists k : Z, (0 <= k < 1000)%Z /\ integer_value (connectionId db) = Some k).
  { unfold db, getInstance; rewrite Hi; simpl.
    apply andb_true_iff in Hr. destruct Hr as (H0 & Hlt).
    apply floor_random_times_1000; assumption. }
  split; [unfold db, getInstance; rewrite Hi; reflexivity |].
  split; [unfold db, getInstance; rewrite Hi; reflexivity |].
  split; [exact Hk |]. split; [exact Hs |].
  split; [unfold rt1, getInstance; rewrite Hi; reflexivity |].
  split; [unfold rt1, getInstance; rewrite Hi; reflexivity |].
  split; [unfold rt1, db, getInstance; rewrite Hi; reflexivity |].
  split; [exact H1 |]. split; [exact Hn |].
  split; [rewrite Hn, H1; reflexivity |].
  intros rt' H'. apply getInstance_cached. rewrite H'; exact Hs.
Qed.

Lemma getInstance_spec_witness :
  ref (fst (getInstance (initial (fun _ => 0.5%float)))) = 0 /\
  getInstance (snd (getInstance (initial (fun _ => 0.5%float))))
  = (fst (getInstance (initial (fun _ => 0.5%float))),
     snd (getInstance (initial (fun _ => 0.5%float)))).
Proof.
  destruct (getInstance_spec (initial (fun _ => 0.5%float)) 2 eq_refl eq_refl)
    as (H1 & _ & _ & _ & _ & _ & _ & H8 & _).
  exact (conj H1 H8).
Defined.

(** X1: Whatever the runtime, a call of [getInstance] is followed only by calls
    that return the same object and change nothing: neither the allocation
    counter, nor the random source, nor the console.  The first call
    constructs (one allocation, one random draw, one console line) exactly
    when the static field is [null]. *)
Theorem getInstance_constructs_once (rt : Runtime) (n : nat) :
  let db := fst (getInstance rt) in
  let rt1 := snd (getInstance rt) in
  Nat.iter n (fun st => snd (getInstance st)) rt1 = rt1 /\
  getInstance (Nat.iter n (fun st => snd (getInstance st)) rt1) = (db, rt1) /\
  match instance rt with
  | None =>
      ref db = next_ref rt /\ next_ref rt1 = S (next_ref rt) /\
      drawn rt1 = S (drawn rt) /\
      console rt1 = console rt ++ [[Txt "Database Instance Created. ID: ";
                                    Num (connectionId db)]]
  | Some db0 => db = db0 /\ rt1 = rt
  end.
Proof.
  intros db rt1.
  assert (H1 : getInstance rt1 = (db, rt1)).
  { apply getInstance_cached, getInstance_sets. }
  assert (Hn : Nat.iter n (fun st => snd (getInstance st)) rt1 = rt1).
  { induction n as [| n IH]; simpl; [reflexivity |]. rewrite IH, H1; reflexivity. }
  split; [exact Hn |]. split; [rewrite Hn; exact H1 |].
  unfold db, rt1, getInstance.
  destruct (instance rt) as [db0 |]; simpl; auto.
Qed.

(** X2: A client that runs any list of queries, each through [getInstance],
    prints at most one creation line, before everything else, and every
    query line carries the id of the one connection. *)
Theorem session_uses_one_connection (sqls : list string) (rt : Runtime) :
  let db := fst (getInstance rt) in
  console (session sqls (snd (getInstance rt)))
  = console (snd (getInstance rt))
    ++ map (fun sql => [Txt "[ID: "; Num (connectionId db);
                        Txt ("] Executing: " ++ sql)]) sqls /\
  instance (session sqls (snd (getInstance rt))) = Some db /\
  next_ref (session sqls (snd (getInstance rt))) = next_ref (snd (getInstance rt)) /\
  drawn (session sqls (snd (getInstance rt))) = drawn (snd (getInstance rt)).
Proof.
  intros db.
  pose proof (getInstance_sets rt) as H. fold db in H.
  clearbody db. revert H. generalize (snd (getInstance rt)). clear rt.
  induction sqls as [| sql sqls IH]; intros rt H; simpl.
  - rewrite app_nil_r. auto.
  - assert (Hq : query rt sql = runQuery db sql rt).
    { unfold query. rewrite (getInstance_cached rt db H). reflexivity. }
    rewrite Hq.
    destruct (IH (runQuery db sql rt) H) as (H1 & H2 & H3 & H4).
    rewrite H1, H2, H3, H4. simpl. rewrite <- app_assoc. auto.
Qed.

(** X3: When [Math.random()] returns a value that is at least 0 and less than
    1, the connection that [getInstance] constructs has an integer id that
    is at least 0 and less than 1000. *)
Theorem connectionId_in_range (rt : Runtime) :
  instance rt = None ->
  unit_interval (random rt (drawn rt)) = true ->
  exists k : Z,
    (0 <= k < 1000)%Z /\
    integer_value (connectionId (fst (getInstance rt))) = Some k.
Proof.
  intros Hi Hr. unfold getInstance; rewrite Hi; simpl.
  apply andb_true_iff in Hr. destruct Hr as (H0 & H1).
  apply floor_random_times_1000; assumption.
Qed.

Lemma connectionId_in_range_witness :
  exists k : Z,
    (0 <= k < 1000)%Z /\
    integer_value (connectionId (fst (getInstance (initial (fun _ => 0.5%float))))) = Some k.
Proof.
  apply (connectionId_in_range (initial (fun _ => 0.5%float))); reflexivity.
Defined.

End SingletonPattern.

(** * Encapsulation: [encapsulation.ts] *)

Module Encapsulation.

(** [class Employee]: two private fields behind accessors. *)
Record Employee : Type := { name : string; age : float }.

Definition new_Employee (n : string) (a : float) : Employee :=
  {| name := n; age := a |}.

Definition getName (this : Employee) : string := name this.

Definition setName (n : string) (this : Employee) : Employee :=
  {| name := n; age := age this |}.

Definition getAge (this : Employee) : float := age this.

Definition setAge (a : float) (this : Employee) : Employee :=
  {| name := name this; age := a |}.

(** Sequences of mutator calls. *)
Inductive Call : Type :=
| SetName (n : string)
| SetAge (a : float).

Definition call (this : Employee) (c : Call) : Employee :=
  match c with
  | SetName n => setName n this
  | SetAge a => setAge a this
  end.

Definition run (cs : list Call) (this : Employee) : Employee :=
  fold_left call cs this.

Definition sets_age (c : Call) : bool :=
  match c with SetAge _ => true | SetName _ => false end.

Definition sets_name (c : Call) : bool :=
  match c with SetName _ => true | SetAge _ => false end.

(** ** Properties of the employee *)

(** X16: What an accessor reads is what the matching mutator wrote last: a
    name survives any number of later changes of the age, an age survives
    any number of later changes of the name, and an employee on which no
    mutator was called reads as constructed. *)
Theorem accessors_read_the_last_write
  (this : Employee) (cs : list Call) (n : string) (a : float) :
  (forallb sets_age cs = true -> getName (run cs (setName n this)) = n) /\
  (forallb sets_name cs = true -> getAge (run cs (setAge a this)) = a) /\
  getName (new_Employee n a) = n /\
  getAge (new_Employee n a) = a.
Proof.
  assert (Hn : forall e, forallb sets_age cs = true -> getName (run cs e) = getName e).
  { induction cs as [| c cs IH]; intros e H; simpl in *; [reflexivity |].
    apply andb_true_iff in H. destruct H as (Hc & Hcs).
    rewrite (IH _ Hcs). destruct c; [discriminate Hc | reflexivity]. }
  assert (Ha : forall e, forallb sets_name cs = true -> getAge (run cs e) = getAge e).
  { clear Hn. induction cs as [| c cs IH]; intros e H; simpl in *; [reflexivity |].
    apply andb_true_iff in H. destruct H as (Hc & Hcs).
    rewrite (IH _ Hcs). destruct c; [reflexivity | discriminate Hc]. }
  split; [intros H; rewrite (Hn _ H); reflexivity |].
  split; [intros H; rewrite (Ha _ H); reflexivity |].
  split; reflexivity.
Qed.

End Encapsulation.

(** * Composition over inheritance: the payment service of the
      design-principles notes *)

Module Composition.

Inductive PaymentProcessor : Type := CreditCardProcessor | PayPalProcessor.

Inductive PaymentValidator : Type := FraudValidator.

Inductive PaymentNotifier : Type := EmailNotifier | SMSNotifier.

Definition Console : Type := list Line.

Definition process_line (this : PaymentProcessor) (amount : float) : Line :=
  match this with
  | CreditCardProcessor => [Txt "Processing $"; Num amount; Txt " via Credit Card"]
  | PayPalProcessor => [Txt "Processing $"; Num amount; Txt " via PayPal"]
  end.

Definition process (this : PaymentProcessor) (amount : float) (console : Console)
  : Console :=
  console ++ [process_line this amount].

(** [FraudValidator.validate]: one line, then [amount <= 10000]. *)
Definition validate (this : PaymentValidator) (amount : float) (console : Console)
  : bool * Console :=
  match this with
  | FraudValidator =>
      ((amount <=? 10000)%float, console ++ [[Txt "Running fraud detection..."]])
  end.

Definition notify_line (this : PaymentNotifier) (amount : float) : Line :=
  match this with
  | EmailNotifier => [Txt "Email sent: Payment of $"; Num amount; Txt " processed"]
  | SMSNotifier => [Txt "SMS sent: Payment of $"; Num amount; Txt " processed"]
  end.

Definition notify (this : PaymentNotifier) (amount : float) (console : Console)
  : Console :=
  console ++ [notify_line this amount].

(** [class PaymentService]: the validator is optional. *)
Record PaymentService : Type := {
  processor : PaymentProcessor;
  validator : option PaymentValidator;
  notifiers : list PaymentNotifier
}.

(** The constructor: a missing third argument is the empty array. *)
Definition new_PaymentService (p : PaymentProcessor) (v : option PaymentValidator)
  (ns : option (list PaymentNotifier)) : PaymentService :=
  {| processor := p; validator := v;
     notifiers := match ns with Some l => l | None => [] end |}.

(** [l.forEach(f)]. *)
Definition forEach (l : list PaymentNotifier)
  (f : PaymentNotifier -> Console -> Console) (console : Console) : Console :=
  fold_left (fun c n => f n c) l console.

(** [execute]: the guard is [this.validator && !this.validator.validate(amount)],
    which does not call [validate] when there is no validator. *)
Definition execute (this : PaymentService) (amount : float) (console : Console)
  : Console :=
  let (failed, console) :=
    match validator this with
    | None => (false, console)
    | Some v => let (ok, console) := validate v amount console in (negb ok, console)
    end in
  if failed then console ++ [[Txt "Payment failed validation"]]
  else
    let console := process (processor this) amount console in
    forEach (notifiers this) (fun n c => notify n amount c) console.

(** ** Properties of the payment service *)

Lemma forEach_notify (ns : list PaymentNotifier) (amount : float) (console : Console) :
  forEach ns (fun n c => notify n amount c) console
  = console ++ map (fun n => notify_line n amount) ns.
Proof.
  unfold forEach. revert console; induction ns as [| n ns IH]; intros console; simpl.
  - rewrite app_nil_r; reflexivity.
  - rewrite IH. unfold notify. rewrite <- app_assoc. reflexivity.
Qed.

(** X17: Validation gates everything.  With a fraud validator, an amount that
    is not at most 10000 prints the validator's line and the failure line
    and nothing else: neither the processor nor any notifier runs.
    Otherwise, and always when there is no validator, the processor line
    comes first and then one line per notifier, in the order of the list. *)
Theorem validation_gates_processing
  (p : PaymentProcessor) (ns : list PaymentNotifier) (amount : float) (console : Console) :
  execute {| processor := p; validator := Some FraudValidator; notifiers := ns |}
          amount console
  = console ++ [Txt "Running fraud detection..."]
    :: (if (amount <=? 10000)%float
        then process_line p amount :: map (fun n => notify_line n amount) ns
        else [[Txt "Payment failed validation"]]) /\
  execute {| processor := p; validator := None; notifiers := ns |} amount console
  = console ++ process_line p amount :: map (fun n => notify_line n amount) ns /\
  execute (new_PaymentService p None None) amount console
  = console ++ [process_line p amount].
Proof.
  unfold execute, new_PaymentService; simpl.
  rewrite !forEach_notify. unfold process.
  destruct (amount <=? 10000)%float; simpl;
    rewrite ?forEach_notify, <- ?app_assoc; auto.
Qed.

Lemma negative_is_at_most_10000 (amount : float) :
  (amount <? 0)%float = true -> (amount <=? 10000)%float = true.
Proof.
  rewrite ltb_spec, leb_spec.
  change (Prim2SF 0) with (S754_zero false).
  change (Prim2SF 10000) with (S754_finite false 5497558138880000 (-39)).
  destruct (Prim2SF amount) as [s | [|] | | [|] m e]; simpl; try discriminate; auto.
Qed.

(** X18: The fraud validator has no lower bound and no test for NaN: every
    negative amount passes it and is processed, while NaN fails it; a
    service without validator processes NaN like any other amount. *)
Theorem fraud_validator_edges
  (p : PaymentProcessor) (ns : list PaymentNotifier) (console : Console) :
  (forall amount : float,
     (amount <? 0)%float = true ->
     execute {| processor := p; validator := Some FraudValidator; notifiers := ns |}
             amount console
     = console ++ [Txt "Running fraud detection..."]
       :: process_line p amount :: map (fun n => notify_line n amount) ns) /\
  execute {| processor := p; validator := Some FraudValidator; notifiers := ns |}
          nan console
  = console ++ [[Txt "Running fraud detection..."]; [Txt "Payment failed validation"]] /\
  execute {| processor := p; validator := None; notifiers := ns |} nan console
  = console ++ process_line p nan :: map (fun n => notify_line n nan) ns.
Proof.
  split; [| split].
  - intros amount H. apply negative_is_at_most_10000 in H.
    unfold execute; simpl. rewrite H; simpl.
    rewrite forEach_notify. unfold process. rewrite <- !app_assoc. reflexivity.
  - unfold execute; simpl. rewrite <- app_assoc. reflexivity.
  - unfold execute; simpl. rewrite forEach_notify. unfold process.
    rewrite <- app_assoc. reflexivity.
Qed.

End Composition.

(** * Separation of concerns: the order service of the design-principles
      notes *)

Module SeparationOfConcerns.

(** An order, as far as the services read it.  The parameter is typed
    [any]: the orders considered are those whose price and quantity are
    numbers and whose e-mail address is a string or is missing
    ([undefined], here [None]). *)
Record Order : Type := { email : option jsstring; price : float; quantity : float }.

Definition Console : Type := list Line.

(** How a call ends: it returns, it throws the [Error] that the code
    constructs, or the runtime throws a [TypeError] (whose message is the
    engine's own). *)
Inductive Completion : Type :=
| Returns
| ThrowsError (message : jsstring)
| ThrowsTypeError.

Fixpoint starts_with (needle s : jsstring) : bool :=
  match needle, s with
  | [], _ => true
  | a :: needle', b :: s' => (a =? b)%N && starts_with needle' s'
  | _ :: _, [] => false
  end.

(** [String.prototype.includes]: the needle starts at some position. *)
Fixpoint includes (s needle : jsstring) : bool :=
  starts_with needle s
  || match s with
     | [] => false
     | _ :: s' => includes s' needle
     end.

(** The first version: everything in one method.  Reading [includes] off
    a missing e-mail address is a [TypeError]. *)
Definition Mixed_placeOrder (order : Order) (console : Console)
  : Completion * Console :=
  match email order with
  | None => (ThrowsTypeError, console)
  | Some e =>
      if negb (includes e (js "@")) then (ThrowsError (js "Invalid email"), console)
      else
        let total := (price order * quantity order)%float in
        let console := console ++ [[Txt "Saving order to database"]] in
        (Returns, console ++ [[Txt "Order placed"]])
  end.

(** The second version: one class per concern. *)
Definition OrderValidator_validate (order : Order) : Completion :=
  match email order with
  | None => ThrowsTypeError
  | Some e =>
      if negb (includes e (js "@")) then ThrowsError (js "Invalid email") else Returns
  end.

Definition PriceCalculator_calculate (price quantity : float) : float :=
  (price * quantity)%float.

(** [console.log] with two arguments prints them with a space between. *)
Definition OrderRepository_save (order : Order) (total : float) (console : Console)
  : Console :=
  console ++ [[Txt "Saving order with total:"; Txt " "; Num total]].

Definition OrderService_placeOrder (order : Order) (console : Console)
  : Completion * Console :=
  match OrderValidator_validate order with
  | Returns =>
      let total := PriceCalculator_calculate (price order) (quantity order) in
      let console := OrderRepository_save order total console in
      (Returns, console ++ [[Txt "Order placed successfully"]])
  | thrown => (thrown, console)
  end.

(** Whether a string holds the character [@]. *)
Definition has_at (s : jsstring) : bool := existsb (N.eqb 64) s.

(** ** Properties of the order service *)

Lemma includes_at (s : jsstring) : includes s (js "@") = has_at s.
Proof.
  unfold has_at. induction s as [| c s IH]; [reflexivity |].
  cbn [includes existsb]. rewrite IH.
  change (starts_with (js "@") (c :: s)) with ((64 =? c)%N && true).
  rewrite andb_true_r. reflexivity.
Qed.

(** X19: For an order whose e-mail address is a string or is missing and
    whose price and quantity are numbers, both versions of [placeOrder]
    end in one of three ways.  A missing address is a [TypeError] of the
    runtime; an address without [@] throws "Invalid email"; in both cases
    nothing has been printed, so no order is saved before it is
    validated.  Otherwise both return after two lines, and the separated
    version saves the order with the total [price * quantity]. *)
Theorem placeOrder_validates_first (order : Order) (console : Console) :
  (fst (OrderService_placeOrder order console) = ThrowsError (js "Invalid email")
   <-> exists e : jsstring, email order = Some e /\ has_at e = false) /\
  (fst (OrderService_placeOrder order console) = ThrowsTypeError
   <-> email order = None) /\
  (fst (OrderService_placeOrder order console) = Returns
   <-> exists e : jsstring, email order = Some e /\ has_at e = true) /\
  (email order = None ->
   OrderService_placeOrder order console = (ThrowsTypeError, console) /\
   Mixed_placeOrder order console = (ThrowsTypeError, console)) /\
  (forall e : jsstring,
     email order = Some e -> has_at e = false ->
     OrderService_placeOrder order console = (ThrowsError (js "Invalid email"), console) /\
     Mixed_placeOrder order console = (ThrowsError (js "Invalid email"), console)) /\
  (forall e : jsstring,
     email order = Some e -> has_at e = true ->
     OrderService_placeOrder order console
     = (Returns, console ++ [ [Txt "Saving order with total:"; Txt " ";
                               Num (price order * quantity order)%float];
                              [Txt "Order placed successfully"] ]) /\
     Mixed_placeOrder order console
     = (Returns, console ++ [ [Txt "Saving order to database"]; [Txt "Order placed"] ])) /\
  fst (Mixed_placeOrder order console) = fst (OrderService_placeOrder order console) /\
  OrderService_placeOrder
    {| email := Some (js "ann@example.org"); price := 2.5; quantity := 4 |} []
  = (Returns, [ [Txt "Saving order with total:"; Txt " "; Num 10];
                [Txt "Order placed successfully"] ]) /\
  OrderService_placeOrder
    {| email := Some (js "ann.example.org"); price := 2.5; quantity := 4 |} []
  = (ThrowsError (js "Invalid email"), []) /\
  OrderService_placeOrder {| email := None; price := 2.5; quantity := 4 |} []
  = (ThrowsTypeError, []).
Proof.
  unfold OrderService_placeOrder, Mixed_placeOrder, OrderValidator_validate,
    OrderRepository_save, PriceCalculator_calculate.
  destruct (email order) as [e |].
  - rewrite includes_at.
    destruct (has_at e) eqn:E; cbn [negb fst]; rewrite <- ?app_assoc; cbn [app];
      (split; [split; [discriminate || (intros _; exists e; auto)
                      | intros (e' & He & Ha); congruence] |]);
      (split; [split; discriminate |]);
      (split; [split; [discriminate || (intros _; exists e; auto)
                      | intros (e' & He & Ha); congruence] |]);
      (split; [discriminate |]);
      (split; [intros e' He Ha; try congruence; split; reflexivity |]);
      (split; [intros e' He Ha; try congruence; split; reflexivity |]);
      (split; [reflexivity |]); repeat split.
  - cbn [fst].
    split; [split; [discriminate | intros (e' & He & _); discriminate He] |].
    split; [split; reflexivity |].
    split; [split; [discriminate | intros (e' & He & _); discriminate He] |].
    split; [intros _; split; reflexivity |].
    split; [intros e' He; discriminate He |].
    split; [intros e' He; discriminate He |].
    split; [reflexivity |]. repeat split.
Qed.

End SeparationOfConcerns.
